(** * William Morris local LLM device: coordination core

    A shallow embedding of [William-Morris-Local-LLM.py]: the typed events
    and the shared FIFO queue, the rotary dial ([RotaryEncoderClass]), the
    key capture and model cycle ([LocalLLM]), the display front end
    ([EpaperDisplay]) and the dispatcher ([DeviceController]).

    Conventions of the embedding.
    - Python [int] is [Z]; [%] is [Z.modulo] (both take the sign of the
      divisor); [str] is [string]; a list is a [list].
    - An object is a record; a method is a function from the record (and
      the shared queue, when the method touches it) to the updated record.
    - [queue.Queue] is the list of its pending items, oldest first.
    - A raised exception is a value of [Exn]; code inside [try] runs in the
      state-and-exception monad [M] of module [LocalLLM].
    - [Event.timestamp] (a wall-clock float) is written once and read by no
      code path, and is left out; so are logging and printing. *)

From Stdlib Require Import ZArith List String Ascii Bool Lia.
Import ListNotations.

Local Open Scope Z_scope.
Local Open Scope list_scope.

(** ** Values, events and the shared queue *)

Inductive EventType : Type :=
| LLM_RESPONSE
| DISPLAY_UPDATE
| SHUTDOWN
| KEYBOARDINPUT
| BAR_UPDATE
| BAR_FULL
| INPUTSENT.

Definition EventType_eqb (a b : EventType) : bool :=
  match a, b with
  | LLM_RESPONSE, LLM_RESPONSE
  | DISPLAY_UPDATE, DISPLAY_UPDATE
  | SHUTDOWN, SHUTDOWN
  | KEYBOARDINPUT, KEYBOARDINPUT
  | BAR_UPDATE, BAR_UPDATE
  | BAR_FULL, BAR_FULL
  | INPUTSENT, INPUTSENT => true
  | _, _ => false
  end.

(** The Python values that travel as event data or sit in [LocalLLM.response]:
    [None], an [int], a [str], or the reply object returned by [chat], of
    which the program reads [.message.content] only. *)
Inductive PyVal : Type :=
| PyNone
| PyInt (n : Z)
| PyStr (s : string)
| PyChat (content : string).

Inductive Exn : Type :=
| AttributeError (msg : string)
| OtherError (msg : string).

(** [str(e)] of an exception. *)
Definition exn_str (e : Exn) : string :=
  match e with
  | AttributeError msg => msg
  | OtherError msg => msg
  end.

Inductive result (A : Type) : Type :=
| Ok (a : A)
| Raise (e : Exn).
Arguments Ok {A} a.
Arguments Raise {A} e.

(** [x.message.content]: defined on a reply object, [AttributeError] on a
    [str] (and on the other values likewise). *)
Definition message_content (v : PyVal) : result string :=
  match v with
  | PyChat c => Ok c
  | PyStr _ => Raise (AttributeError "'str' object has no attribute 'message'"%string)
  | PyInt _ => Raise (AttributeError "'int' object has no attribute 'message'"%string)
  | PyNone => Raise (AttributeError "'NoneType' object has no attribute 'message'"%string)
  end.

Record Event : Type := mkEvent { type : EventType; data : PyVal }.

Definition Queue : Type := list Event.

(** [q.put(e)] *)
Definition put (e : Event) (q : Queue) : Queue := q ++ [e].

(** [q.get(timeout=...)]: the oldest item and the rest, or [None] for
    [queue.Empty]. *)
Definition get (q : Queue) : option (Event * Queue) :=
  match q with
  | [] => None
  | e :: rest => Some (e, rest)
  end.

(** [with q.mutex: q.queue.clear()] *)
Definition clear (q : Queue) : Queue := [].

Definition count_type (t : EventType) (q : Queue) : nat :=
  List.length (filter (fun e => EventType_eqb (type e) t) q).

(** The events the producers construct. *)
Definition bar_update (n : Z) : Event := mkEvent BAR_UPDATE (PyInt n).
Definition bar_full : Event := mkEvent BAR_FULL PyNone.
Definition keyboardinput : Event := mkEvent KEYBOARDINPUT PyNone.
Definition inputsent : Event := mkEvent INPUTSENT PyNone.
Definition llm_response (v : PyVal) : Event := mkEvent LLM_RESPONSE v.

(** ** The rotary dial *)

Module RotaryEncoderClass.

Record t : Type := mk {
  is_running : bool;
  steps : Z;                (* self.encoder.steps *)
  rotation_count : Z;
  loading_progress : Z;
  rotations_met : bool
}.

Definition CPR : Z := 2048.

(** [__init__] *)
Definition init : t :=
  {| is_running := false; steps := 0; rotation_count := 0;
     loading_progress := -1; rotations_met := false |}.

Definition set_is_running (b : bool) (r : t) : t :=
  {| is_running := b; steps := steps r; rotation_count := rotation_count r;
     loading_progress := loading_progress r; rotations_met := rotations_met r |}.

Definition set_steps (n : Z) (r : t) : t :=
  {| is_running := is_running r; steps := n; rotation_count := rotation_count r;
     loading_progress := loading_progress r; rotations_met := rotations_met r |}.

Definition set_rotation_count (n : Z) (r : t) : t :=
  {| is_running := is_running r; steps := steps r; rotation_count := n;
     loading_progress := loading_progress r; rotations_met := rotations_met r |}.

Definition set_loading_progress (n : Z) (r : t) : t :=
  {| is_running := is_running r; steps := steps r; rotation_count := rotation_count r;
     loading_progress := n; rotations_met := rotations_met r |}.

Definition set_rotations_met (b : bool) (r : t) : t :=
  {| is_running := is_running r; steps := steps r; rotation_count := rotation_count r;
     loading_progress := loading_progress r; rotations_met := b |}.

Definition stop (r : t) : t := set_is_running false r.

(** [rotation_detected], on the dial and the shared event queue. *)
Definition rotation_detected (r : t) (q : Queue) : t * Queue :=
  if is_running r then
    if CPR <=? Z.abs (steps r) then
      let r1 :=
        if 0 <? steps r
        then set_rotation_count (rotation_count r + 1) r
        else set_rotation_count (rotation_count r - 1) r in
      let r2 := set_steps 0 r1 in
      if rotation_count r2 mod 3 =? 0 then
        let r3 := set_rotations_met true r2 in
        let r4 := set_loading_progress (loading_progress r3 + 1) r3 in
        let q1 := put (bar_update (loading_progress r4)) q in
        if 6 <=? loading_progress r4 then
          let q2 := put bar_full q1 in
          let r5 := set_rotation_count 0 r4 in
          let r6 := set_loading_progress (-1) r5 in
          (stop r6, q2)
        else (r4, q1)
      else (set_rotations_met false r2, q)
    else (r, q)
  else (r, q).

(** One iteration of [run]: the polling thread calls [rotation_detected]
    when the dial is active. *)
Definition run_step (r : t) (q : Queue) : t * Queue :=
  if is_running r then rotation_detected r q else (r, q).

(** The encoder hardware moves [self.encoder.steps] by one detent
    ([d] is [1] clockwise, [-1] counterclockwise; [max_steps = 0] leaves
    the counter unbounded) and fires [when_rotated]. *)
Definition encoder_step (d : Z) (rq : t * Queue) : t * Queue :=
  rotation_detected (set_steps (steps (fst rq) + d) (fst rq)) (snd rq).

(** A completed full turn: [CPR] detents in one direction. *)
Definition full_turn (d : Z) (rq : t * Queue) : t * Queue :=
  Nat.iter (Z.to_nat CPR) (encoder_step d) rq.

Definition full_turns (n : nat) (d : Z) (rq : t * Queue) : t * Queue :=
  Nat.iter n (full_turn d) rq.

(** The callback as it fires on the last detent of a full turn that
    started with the encoder counter at zero. *)
Definition turn (d : Z) (r : t) (q : Queue) : t * Queue :=
  rotation_detected (set_steps (d * CPR) r) q.

(** The dial as the dispatcher arms it on [INPUTSENT]. *)
Definition armed : t := set_is_running true init.

End RotaryEncoderClass.

(** ** Key capture and the model cycle *)

Module LocalLLM.

(** One entry of [self.messages]. *)
Record Message : Type := mkMessage { role : string; content : string }.

(** What [pynput] hands to [on_press]: a [KeyCode], whose [char] is a
    string or [None], or a member of [keyboard.Key], which has no [char]
    attribute. *)
Inductive Key : Type :=
| KeyCode (char : option string)
| Key_space
| Key_backspace
| Key_enter
| Key_other.

Record t : Type := mk {
  is_running : bool;
  key_count : Z;
  input_counter : Z;
  input_ready : bool;
  llm_output_ready : bool;
  user_input : string;
  messages : list Message;
  response : option PyVal      (* [None]: the attribute is not set yet *)
}.

Definition system_prompt : Message :=
  mkMessage "system"
    ("You are William Morris. Speak as he would. Embody his anarchist philosophies, values, and views on craft, labour, culture, and society. "
     ++ "Your entire response must always be under 80 words. This is an absolute limit, never exceed it!!!"
     ++ "Generate a response relevant to the prompt within the context of AI and craft."
     ++ "Avoid saying anything that is not historically accurate"
     ++ "You must end the response with one single specific question relevant to the user input that will encourage deep discussion on the effect of AI on craft, labor, society, art, sustainability, or creativity. This is an absolute limit of one question per response; do not exceed it!")%string.

(** [__init__] *)
Definition init : t :=
  {| is_running := true; key_count := 2; input_counter := 0;
     input_ready := false; llm_output_ready := false;
     user_input := EmptyString; messages := [system_prompt]; response := None |}.

Definition set_is_running (b : bool) (s : t) : t :=
  {| is_running := b; key_count := key_count s; input_counter := input_counter s;
     input_ready := input_ready s; llm_output_ready := llm_output_ready s;
     user_input := user_input s; messages := messages s; response := response s |}.

Definition set_key_count (n : Z) (s : t) : t :=
  {| is_running := is_running s; key_count := n; input_counter := input_counter s;
     input_ready := input_ready s; llm_output_ready := llm_output_ready s;
     user_input := user_input s; messages := messages s; response := response s |}.

Definition set_input_counter (n : Z) (s : t) : t :=
  {| is_running := is_running s; key_count := key_count s; input_counter := n;
     input_ready := input_ready s; llm_output_ready := llm_output_ready s;
     user_input := user_input s; messages := messages s; response := response s |}.

Definition set_input_ready (b : bool) (s : t) : t :=
  {| is_running := is_running s; key_count := key_count s; input_counter := input_counter s;
     input_ready := b; llm_output_ready := llm_output_ready s;
     user_input := user_input s; messages := messages s; response := response s |}.

Definition set_llm_output_ready (b : bool) (s : t) : t :=
  {| is_running := is_running s; key_count := key_count s; input_counter := input_counter s;
     input_ready := input_ready s; llm_output_ready := b;
     user_input := user_input s; messages := messages s; response := response s |}.

Definition set_user_input (u : string) (s : t) : t :=
  {| is_running := is_running s; key_count := key_count s; input_counter := input_counter s;
     input_ready := input_ready s; llm_output_ready := llm_output_ready s;
     user_input := u; messages := messages s; response := response s |}.

Definition set_messages (ms : list Message) (s : t) : t :=
  {| is_running := is_running s; key_count := key_count s; input_counter := input_counter s;
     input_ready := input_ready s; llm_output_ready := llm_output_ready s;
     user_input := user_input s; messages := ms; response := response s |}.

Definition set_response (r : option PyVal) (s : t) : t :=
  {| is_running := is_running s; key_count := key_count s; input_counter := input_counter s;
     input_ready := input_ready s; llm_output_ready := llm_output_ready s;
     user_input := user_input s; messages := messages s; response := r |}.

Definition stop (s : t) : t := set_is_running false s.

(** [s[:-1]] *)
Definition drop_last (s : string) : string :=
  substring 0 (String.length s - 1) s.

(** Truth value of a [str]. *)
Definition truthy (s : string) : bool :=
  match s with
  | EmptyString => false
  | String _ _ => true
  end.

(** The [try ... except AttributeError] part of [on_press]. *)
Definition on_press_key (key : Key) (s : t) (q : Queue) : t * Queue :=
  match key with
  | KeyCode (Some c) =>
      if truthy c
      then (set_key_count (key_count s + 1)
              (set_user_input (user_input s ++ c)%string s), q)
      else (s, q)
  | KeyCode None => (s, q)
  | Key_space =>
      (set_key_count (key_count s + 1)
         (set_user_input (user_input s ++ " ")%string s), q)
  | Key_backspace =>
      (set_key_count (key_count s + 1)
         (set_user_input (drop_last (user_input s)) s), q)
  | Key_enter =>
      let q1 := clear q in
      let s1 := set_key_count 0 s in
      let q2 := put inputsent q1 in
      (set_input_ready true s1, q2)
  | Key_other => (s, q)
  end.

(** [on_press] *)
Definition on_press (key : Key) (s : t) (q : Queue) : t * Queue :=
  let '(s1, q1) := on_press_key key s q in
  if 3 <=? key_count s1 then
    let q2 := put keyboardinput q1 in
    let s2 := set_input_counter (input_counter s1 + 1) s1 in
    (set_key_count 0 s2, q2)
  else (s1, q1).

(** The listener thread delivering a sequence of keys. *)
Definition press_all (keys : list Key) (sq : t * Queue) : t * Queue :=
  fold_left (fun sq k => on_press k (fst sq) (snd sq)) keys sq.

(** The keystrokes that [on_press] counts. *)
Definition accepted (key : Key) : bool :=
  match key with
  | KeyCode (Some c) => truthy c
  | Key_space | Key_backspace => true
  | _ => false
  end.

(** *** State and exceptions of the worker thread *)

Definition St : Type := (t * Queue)%type.
Definition M (A : Type) : Type := St -> St * result A.

Definition ret {A} (a : A) : M A := fun st => (st, Ok a).
Definition bind {A B} (m : M A) (k : A -> M B) : M B :=
  fun st =>
    match m st with
    | (st1, Ok a) => k a st1
    | (st1, Raise e) => (st1, Raise e)
    end.
Definition modify (f : t -> t) : M unit :=
  fun st => ((f (fst st), snd st), Ok tt).
Definition gets {A} (f : t -> A) : M A :=
  fun st => (st, Ok (f (fst st))).
Definition push (e : Event) : M unit :=
  fun st => ((fst st, put e (snd st)), Ok tt).
Definition lift {A} (r : result A) : M A := fun st => (st, r).

Notation "x <- m ;; k" := (bind m (fun x => k))
  (at level 61, m at next level, right associativity).
Notation "m ;; k" := (bind m (fun _ => k))
  (at level 61, right associativity).

(** [get_llm_response]; [chat] is the outcome of the call to the model:
    the content of the reply object, or the exception raised. *)
Definition get_llm_response (chat : result string) : M PyVal :=
  match chat with
  | Ok c =>
      modify (set_llm_output_ready true) ;;
      ret (PyChat c)
  | Raise e => ret (PyStr ("Error: " ++ exn_str e)%string)
  end.

(** The statements of [run] inside [try], from the end of the wait for
    [input_ready]; [log] is the outcome of writing the chat log. *)
Definition run_try (chat : result string) (log : result unit) : M unit :=
  u <- gets user_input ;;
  modify (fun s => set_messages (messages s ++ [mkMessage "user" u]) s) ;;
  r <- get_llm_response chat ;;
  modify (set_response (Some r)) ;;
  _ <- lift (message_content r) ;;
  lift log ;;
  c <- lift (message_content r) ;;
  modify (fun s => set_messages (messages s ++ [mkMessage "assistant" c]) s) ;;
  modify (set_llm_output_ready true) ;;
  push (llm_response r) ;;
  modify (set_user_input EmptyString) ;;
  modify (set_input_ready false).

(** [except Exception as e] of [run]. *)
Definition run_except (e : Exn) (st : St) : St :=
  (fst st, put (llm_response (PyStr ("Error: " ++ exn_str e)%string)) (snd st)).

(** The start of an iteration of [run], up to the start of the listener. *)
Definition run_begin (s : t) : t := set_input_counter 0 s.

(** The rest of the iteration, from the end of the wait for [input_ready]:
    the [try] body and [except Exception]. *)
Definition run_finish (chat : result string) (log : result unit) (st : St) : St :=
  match run_try chat log st with
  | (st1, Ok _) => st1
  | (st1, Raise e) => run_except e st1
  end.

(** One iteration of the [while self.is_running] loop of [run]: [keys]
    are the keys the listener delivers during the wait.  [None] when the
    wait has not ended ([input_ready] still false). *)
Definition run_iteration (keys : list Key) (chat : result string)
    (log : result unit) (st : St) : option St :=
  let st1 := press_all keys (run_begin (fst st), snd st) in
  if input_ready (fst st1) then Some (run_finish chat log st1) else None.

End LocalLLM.

(** ** The display front end *)

Module EpaperDisplay.

(** The drawing routines of the display, with the argument each was
    entered with.  What they paint is the panel's business. *)
Inductive Call : Type :=
| Call_loadingbar
| Call_display_user_input (current_input : string)
| Call_update_loading_bar (loading_progress : Z)
| Call_display_response (response : string).

Record t : Type := mk {
  is_running : bool;
  update_queue : list PyVal;
  num_bars : Z;
  key_count : Z;
  input_counter : Z;
  loading_progress : Z;
  calls : list Call            (* routines entered so far, oldest first *)
}.

(** [__init__] *)
Definition init : t :=
  {| is_running := true; update_queue := []; num_bars := 6; key_count := 2;
     input_counter := 0; loading_progress := -1; calls := [] |}.

Definition set_is_running (b : bool) (d : t) : t :=
  {| is_running := b; update_queue := update_queue d; num_bars := num_bars d;
     key_count := key_count d; input_counter := input_counter d;
     loading_progress := loading_progress d; calls := calls d |}.

Definition set_update_queue (u : list PyVal) (d : t) : t :=
  {| is_running := is_running d; update_queue := u; num_bars := num_bars d;
     key_count := key_count d; input_counter := input_counter d;
     loading_progress := loading_progress d; calls := calls d |}.

Definition set_input_counter (n : Z) (d : t) : t :=
  {| is_running := is_running d; update_queue := update_queue d; num_bars := num_bars d;
     key_count := key_count d; input_counter := n;
     loading_progress := loading_progress d; calls := calls d |}.

Definition set_loading_progress (n : Z) (d : t) : t :=
  {| is_running := is_running d; update_queue := update_queue d; num_bars := num_bars d;
     key_count := key_count d; input_counter := input_counter d;
     loading_progress := n; calls := calls d |}.

Definition enter (c : Call) (d : t) : t :=
  {| is_running := is_running d; update_queue := update_queue d; num_bars := num_bars d;
     key_count := key_count d; input_counter := input_counter d;
     loading_progress := loading_progress d; calls := calls d ++ [c] |}.

Definition loadingbar (d : t) : t := enter Call_loadingbar d.

Definition display_user_input (current_input : string) (d : t) : t :=
  enter (Call_display_user_input current_input) d.

Definition prtext (current_input : string) (d : t) : t :=
  set_input_counter 0 (display_user_input current_input d).

Definition display_response (response : string) (d : t) : t :=
  enter (Call_display_response response) d.

Definition update_loading_bar (lp : Z) (d : t) : t :=
  let d1 := enter (Call_update_loading_bar lp) d in
  if lp <? num_bars d1
  then set_loading_progress (loading_progress d1 + 1) d1
  else d1.

(** [queue_update] *)
Definition queue_update (text : PyVal) (d : t) : t :=
  set_update_queue (update_queue d ++ [text]) d.

Definition stop (d : t) : t := set_is_running false d.

(** One iteration of [run].  The class defines no [update_display], so
    the call on a fetched item raises [AttributeError], which the loop's
    [except Exception] reports; the second component is that report. *)
Definition run_step (d : t) : t * option Exn :=
  match update_queue d with
  | [] => (d, None)
  | _ :: rest =>
      (set_update_queue rest d,
       Some (AttributeError
               "'EpaperDisplay' object has no attribute 'update_display'"%string))
  end.

End EpaperDisplay.

(** ** The dispatcher *)

Module DeviceController.

Record t : Type := mk {
  event_queue : Queue;
  rotary : RotaryEncoderClass.t;
  display : EpaperDisplay.t;
  llm : LocalLLM.t;
  current_prompt : string;
  user_input : string;
  current_response : string;
  loading_progress : Z;
  is_running : bool;
  loading_bar_full : bool
}.

(** [__init__] *)
Definition init : t :=
  {| event_queue := [];
     rotary := RotaryEncoderClass.init;
     display := EpaperDisplay.init;
     llm := LocalLLM.init;
     current_prompt := EmptyString; user_input := EmptyString; current_response := EmptyString;
     loading_progress := -1; is_running := true; loading_bar_full := false |}.

Definition set_event_queue (q : Queue) (c : t) : t :=
  {| event_queue := q; rotary := rotary c; display := display c; llm := llm c;
     current_prompt := current_prompt c; user_input := user_input c;
     current_response := current_response c; loading_progress := loading_progress c;
     is_running := is_running c; loading_bar_full := loading_bar_full c |}.

Definition set_rotary (r : RotaryEncoderClass.t) (c : t) : t :=
  {| event_queue := event_queue c; rotary := r; display := display c; llm := llm c;
     current_prompt := current_prompt c; user_input := user_input c;
     current_response := current_response c; loading_progress := loading_progress c;
     is_running := is_running c; loading_bar_full := loading_bar_full c |}.

Definition set_display (d : EpaperDisplay.t) (c : t) : t :=
  {| event_queue := event_queue c; rotary := rotary c; display := d; llm := llm c;
     current_prompt := current_prompt c; user_input := user_input c;
     current_response := current_response c; loading_progress := loading_progress c;
     is_running := is_running c; loading_bar_full := loading_bar_full c |}.

Definition set_llm (l : LocalLLM.t) (c : t) : t :=
  {| event_queue := event_queue c; rotary := rotary c; display := display c; llm := l;
     current_prompt := current_prompt c; user_input := user_input c;
     current_response := current_response c; loading_progress := loading_progress c;
     is_running := is_running c; loading_bar_full := loading_bar_full c |}.

Definition set_is_running (b : bool) (c : t) : t :=
  {| event_queue := event_queue c; rotary := rotary c; display := display c; llm := llm c;
     current_prompt := current_prompt c; user_input := user_input c;
     current_response := current_response c; loading_progress := loading_progress c;
     is_running := b; loading_bar_full := loading_bar_full c |}.

Definition set_loading_bar_full (b : bool) (c : t) : t :=
  {| event_queue := event_queue c; rotary := rotary c; display := display c; llm := llm c;
     current_prompt := current_prompt c; user_input := user_input c;
     current_response := current_response c; loading_progress := loading_progress c;
     is_running := is_running c; loading_bar_full := b |}.

(** [self.llm.response.message.content] *)
Definition llm_response_content (c : t) : result string :=
  match LocalLLM.response (llm c) with
  | None =>
      Raise (AttributeError "'LocalLLM' object has no attribute 'response'"%string)
  | Some v => message_content v
  end.

(** [check_display_response] *)
Definition check_display_response (c : t) : result t :=
  if LocalLLM.llm_output_ready (llm c) && loading_bar_full c then
    match llm_response_content c with
    | Raise e => Raise e
    | Ok txt =>
        let c1 := set_display (EpaperDisplay.display_response txt (display c)) c in
        let c2 := set_llm (LocalLLM.set_llm_output_ready false (llm c1)) c1 in
        Ok (set_loading_bar_full false c2)
    end
  else Ok c.

(** [shutdown] *)
Definition shutdown (c : t) : t :=
  let c1 := set_is_running false c in
  let c2 := set_display (EpaperDisplay.stop (display c1)) c1 in
  let c3 := set_rotary (RotaryEncoderClass.stop (rotary c2)) c2 in
  set_llm (LocalLLM.stop (llm c3)) c3.

(** [handle_event] *)
Definition handle_event (event : Event) (c : t) : result t :=
  match type event with
  | SHUTDOWN => Ok (shutdown c)
  | KEYBOARDINPUT =>
      Ok (set_display
            (EpaperDisplay.prtext (LocalLLM.user_input (llm c)) (display c)) c)
  | INPUTSENT =>
      let c1 := set_display (EpaperDisplay.loadingbar (display c)) c in
      let c2 := set_display
                  (EpaperDisplay.display_user_input
                     (LocalLLM.user_input (llm c1)) (display c1)) c1 in
      Ok (set_rotary (RotaryEncoderClass.set_is_running true (rotary c2)) c2)
  | BAR_UPDATE =>
      Ok (set_display
            (EpaperDisplay.update_loading_bar
               (RotaryEncoderClass.loading_progress (rotary c)) (display c)) c)
  | BAR_FULL => check_display_response (set_loading_bar_full true c)
  | LLM_RESPONSE => check_display_response c
  | DISPLAY_UPDATE => Ok c
  end.

(** One iteration of the loop of [process_events]: fetch and dispatch,
    or poll again on [queue.Empty]. *)
Definition process_step (c : t) : result t :=
  match get (event_queue c) with
  | None => Ok c
  | Some (event, rest) => handle_event event (set_event_queue rest c)
  end.

(** [process_events], for [fuel] iterations of [while self.is_running]. *)
Fixpoint process_events (fuel : nat) (c : t) : result t :=
  match fuel with
  | O => Ok c
  | S fuel' =>
      if is_running c then
        match process_step c with
        | Ok c1 => process_events fuel' c1
        | Raise e => Raise e
        end
      else Ok c
  end.

End DeviceController.

(** ** Vocabulary for the readiness gate and for dispatch *)

Module Gate.
Import DeviceController.

Definition is_bar_full (e : Event) : bool := EventType_eqb (type e) BAR_FULL.

(** The two events that evaluate the gate. *)
Definition gate_event (e : Event) : bool :=
  EventType_eqb (type e) BAR_FULL || EventType_eqb (type e) LLM_RESPONSE.

(** The stored reply can be shown: while [llm_output_ready] is up,
    [llm.response] is a reply object. *)
Definition reply_ok (c : t) : bool :=
  negb (LocalLLM.llm_output_ready (llm c)) ||
  match LocalLLM.response (llm c) with
  | Some (PyChat _) => true
  | _ => false
  end.

(** Both flags are up when the gate is evaluated for [e]. *)
Definition gate_ready (e : Event) (c : t) : bool :=
  LocalLLM.llm_output_ready (llm c) && (loading_bar_full c || is_bar_full e).

Definition shown (e : Event) (c : t) : list EpaperDisplay.Call :=
  if gate_ready e c then
    match LocalLLM.response (llm c) with
    | Some (PyChat txt) => [EpaperDisplay.Call_display_response txt]
    | _ => []
    end
  else [].

Definition is_display_response (k : EpaperDisplay.Call) : bool :=
  match k with
  | EpaperDisplay.Call_display_response _ => true
  | _ => false
  end.

Definition responses_shown (c : t) : nat :=
  List.length (filter is_display_response (EpaperDisplay.calls (display c))).

(** The drawing routines [handle_event] enters for [e] in state [c]. *)
Definition dispatch_calls (e : Event) (c : t) : list EpaperDisplay.Call :=
  match type e with
  | KEYBOARDINPUT =>
      [EpaperDisplay.Call_display_user_input (LocalLLM.user_input (llm c))]
  | INPUTSENT =>
      [EpaperDisplay.Call_loadingbar;
       EpaperDisplay.Call_display_user_input (LocalLLM.user_input (llm c))]
  | BAR_UPDATE =>
      [EpaperDisplay.Call_update_loading_bar
         (RotaryEncoderClass.loading_progress (rotary c))]
  | BAR_FULL | LLM_RESPONSE => shown e c
  | SHUTDOWN | DISPLAY_UPDATE => []
  end.

(** The dispatcher as it stands when the dial has just completed a
    charge: the dial after 21 clockwise turns, nothing else touched. *)
Definition after_full_charge : t :=
  set_rotary
    (fst (RotaryEncoderClass.full_turns 21 1 (RotaryEncoderClass.armed, [])))
    init.

End Gate.

(** ** The threads side by side *)

Module System.
Import DeviceController.

(** The worker thread starts an iteration of [LocalLLM.run]. *)
Definition begin (c : t) : t := set_llm (LocalLLM.run_begin (llm c)) c.

(** The listener thread delivers [keys] to [on_press]. *)
Definition listen (keys : list LocalLLM.Key) (c : t) : t :=
  let st := LocalLLM.press_all keys (llm c, event_queue c) in
  set_event_queue (snd st) (set_llm (fst st) c).

(** The worker thread, once [input_ready] is up, goes through the rest of
    the iteration; until then it waits. *)
Definition finish (chat : result string) (log : result unit) (c : t) : t :=
  if LocalLLM.input_ready (llm c) then
    let st := LocalLLM.run_finish chat log (llm c, event_queue c) in
    set_event_queue (snd st) (set_llm (fst st) c)
  else c.

(** The user gives the wheel [n] full turns in direction [d]. *)
Definition dial (n : nat) (d : Z) (c : t) : t :=
  let rq := RotaryEncoderClass.full_turns n d (rotary c, event_queue c) in
  set_event_queue (snd rq) (set_rotary (fst rq) c).

(** The dispatcher goes [n] times round its loop. *)
Definition dispatch (n : nat) (r : result t) : result t :=
  match r with
  | Ok c => process_events n c
  | Raise e => Raise e
  end.

Definition on {A : Type} (f : A -> A) (r : result A) : result A :=
  match r with
  | Ok a => Ok (f a)
  | Raise e => Raise e
  end.

Definition key (s : string) : LocalLLM.Key := LocalLLM.KeyCode (Some s).

(** The device once a first prompt has gone through the worker's
    iteration and the model has answered [txt]: the state [run] leaves
    behind after its line 472, nothing dispatched yet. *)
Definition answered (txt : string) : t :=
  finish (Ok txt) (Ok tt) (listen [key "w"; LocalLLM.Key_enter] (begin init)).

(** A run of the device.  The user sends "hi" and starts turning the
    wheel; the model answers; after three turns the user sends "ok", and
    this time the call to the model fails; the user then completes the
    charge with eighteen more turns.  The result is the state in which
    the dispatcher finds the events of those turns in its queue. *)
Definition second_prompt_fails : result t :=
  let r1 := Ok (listen [key "h"; key "i"; LocalLLM.Key_enter] (begin init)) in
  let r2 := dispatch 1 r1 in
  let r3 := on (finish (Ok "Fellowship is life"%string) (Ok tt)) r2 in
  let r4 := dispatch 1 r3 in
  let r5 := dispatch 1 (on (dial 3 1) r4) in
  let r6 := on (listen [key "o"; key "k"; LocalLLM.Key_enter]) (on begin r5) in
  let r7 := dispatch 1 r6 in
  let r8 := on (finish (Raise (OtherError "connection refused")) (Ok tt)) r7 in
  let r9 := dispatch 1 r8 in
  on (dial 18 1) r9.

End System.

(** ** More vocabulary: event runs, typed text, retries *)

Definition shutdown_event : Event := mkEvent SHUTDOWN PyNone.

Module Units.

(** The [BAR_UPDATE] events for the [k] units that follow progress [lp]. *)
Definition units (lp : Z) (k : nat) : Queue :=
  map (fun i => bar_update (lp + 1 + Z.of_nat i)) (seq 0 k).

(** The changes the encoder's step counter goes through, by any amounts,
    with a callback after each. *)
Definition detents (ds : list Z) (rq : RotaryEncoderClass.t * Queue)
  : RotaryEncoderClass.t * Queue :=
  fold_left (fun rq d => RotaryEncoderClass.encoder_step d rq) ds rq.

(** An event the dial can push: a [BAR_UPDATE] with a unit from 0 to 6,
    or [BAR_FULL]. *)
Definition dial_event (e : Event) : bool :=
  match type e, data e with
  | BAR_UPDATE, PyInt n => (0 <=? n) && (n <=? 6)
  | BAR_FULL, PyNone => true
  | _, _ => false
  end.

End Units.

Module Typing.
Import LocalLLM.

(** The key that types character [c]: the space bar arrives as a member of
    [keyboard.Key], any other character as a [KeyCode]. *)
Definition key_of_char (c : ascii) : Key :=
  if Ascii.eqb c " " then Key_space else KeyCode (Some (String c EmptyString)).

Fixpoint keys_of_text (text : string) : list Key :=
  match text with
  | EmptyString => []
  | String c rest => key_of_char c :: keys_of_text rest
  end.

(** What a key does to the line buffer. *)
Definition edit (k : Key) (u : string) : string :=
  match k with
  | KeyCode (Some c) => if truthy c then (u ++ c)%string else u
  | Key_space => (u ++ " ")%string
  | Key_backspace => drop_last u
  | _ => u
  end.

(** Successive iterations of [run] with no key pressed, each with the
    outcome of its call to the model and of its log write. *)
Fixpoint run_iterations (outcomes : list (result string * result unit))
    (st : St) : option St :=
  match outcomes with
  | [] => Some st
  | (chat, log) :: rest =>
      match run_iteration [] chat log st with
      | Some st1 => run_iterations rest st1
      | None => None
      end
  end.

(** Iterations in which the call to the model raises. *)
Definition failing (es : list Exn) : list (result string * result unit) :=
  map (fun e => (Raise e, Ok tt)) es.

(** The event the handler of [run] pushes when a [str] was read as a
    reply object. *)
Definition str_error_event : Event :=
  llm_response (PyStr "Error: 'str' object has no attribute 'message'").

End Typing.

Module Loop.
Import DeviceController.

(** Handling a sequence of events one after the other. *)
Fixpoint handle_all (events : list Event) (c : t) : result t :=
  match events with
  | [] => Ok c
  | e :: rest =>
      match handle_event e c with
      | Ok c1 => handle_all rest c1
      | Raise x => Raise x
      end
  end.

Definition is_shutdown (e : Event) : bool := EventType_eqb (type e) SHUTDOWN.

Definition no_shutdown (events : list Event) : bool :=
  forallb (fun e => negb (is_shutdown e)) events.

(** The display thread goes [n] times round the loop of its [run]. *)
Definition display_run (n : nat) (d : EpaperDisplay.t) : EpaperDisplay.t :=
  Nat.iter n (fun d => fst (EpaperDisplay.run_step d)) d.

(** Other threads queue [texts] for the display, in order. *)
Definition queue_updates (texts : list PyVal) (d : EpaperDisplay.t)
  : EpaperDisplay.t :=
  fold_left (fun d text => EpaperDisplay.queue_update text d) texts d.

End Loop.

(** ** Text layout *)

Module PyText.

(** [c.isspace()], a character being a code point below 256. *)
Definition isspace (c : ascii) : bool :=
  let n := nat_of_ascii c in
  ((9 <=? n)%nat && (n <=? 13)%nat) || ((28 <=? n)%nat && (n <=? 32)%nat) ||
  (n =? 133)%nat || (n =? 160)%nat.

Definition nonempty (s : string) : bool :=
  match s with
  | EmptyString => false
  | String _ _ => true
  end.

Fixpoint split_from (cur : string) (s : string) : list string :=
  match s with
  | EmptyString => if nonempty cur then [cur] else []
  | String c rest =>
      if isspace c then
        if nonempty cur then cur :: split_from EmptyString rest
        else split_from EmptyString rest
      else split_from (cur ++ String c EmptyString) rest
  end.

(** [s.split()]: the words between runs of whitespace. *)
Definition split (s : string) : list string := split_from EmptyString s.

Fixpoint split_on_from (sep : ascii) (cur : string) (s : string) : list string :=
  match s with
  | EmptyString => [cur]
  | String c rest =>
      if Ascii.eqb c sep then cur :: split_on_from sep EmptyString rest
      else split_on_from sep (cur ++ String c EmptyString) rest
  end.

(** [s.split(sep)] for a separator of one character: the pieces between
    the separators, empty ones kept. *)
Definition split_on (sep : ascii) (s : string) : list string :=
  split_on_from sep EmptyString s.

(** [sep.join(l)] *)
Fixpoint join (sep : string) (l : list string) : string :=
  match l with
  | [] => EmptyString
  | x :: rest =>
      match rest with
      | [] => x
      | _ :: _ => (x ++ sep ++ join sep rest)%string
      end
  end.

Fixpoint forall_chars (p : ascii -> bool) (s : string) : bool :=
  match s with
  | EmptyString => true
  | String c rest => p c && forall_chars p rest
  end.

(** A word: not empty, no whitespace in it. *)
Definition is_word (w : string) : bool :=
  nonempty w && forall_chars (fun c => negb (isspace c)) w.

End PyText.

Module Layout.
Import PyText.

Section WithFont.

(** [draw.textbbox((0, 0), line, font=font)[2]]: the width the panel's
    font gives a line. *)
Variable width : string -> Z.
Variable max_width : Z.

(** The body of the loop of [wrap_text], on [(lines, current_line)]. *)
Definition wrap_step (st : list string * list string) (word : string)
  : list string * list string :=
  let test_line := join " " (snd st ++ [word]) in
  let test_width := width test_line in
  if test_width <=? max_width
  then (fst st, snd st ++ [word])
  else (fst st ++ [join " " (snd st)], [word]).

Definition wrap_words (words : list string) : list string :=
  let st := fold_left wrap_step words ([], []) in
  match snd st with
  | [] => fst st
  | _ :: _ => fst st ++ [join " " (snd st)]
  end.

(** The text with its whitespace squeezed: [' '.join(text.split())]. *)
Definition squeeze (text : string) : string := join " " (split text).

(** [wrap_text] *)
Definition wrap_text (text : string) : list string :=
  let text1 := squeeze text in
  let words := split_on " " text1 in
  wrap_words words.

(** A group of words that fits on a line, or is a single word. *)
Definition fits (g : list string) : Prop :=
  (exists w, g = [w]) \/ width (join " " g) <= max_width.

End WithFont.

End Layout.

(** ** One interaction, from prompt to reply *)

Module Session.
Import DeviceController System.

(** The user types [text] and Enter; the dispatcher handles what is
    queued. *)
Definition prompt (text : string) (c : t) : result t :=
  dispatch 1
    (Ok (listen (Typing.keys_of_text text ++ [LocalLLM.Key_enter]) (begin c))).

(** The model answers [txt], the log is written, and the dispatcher
    handles the event. *)
Definition answer (txt : string) (r : result t) : result t :=
  dispatch 1 (on (finish (Ok txt) (Ok tt)) r).

(** Three turns of the wheel, and the dispatcher handles the next event. *)
Definition charge_unit (r : result t) : result t :=
  dispatch 1 (on (dial 3 1) r).

(** The whole charge: seven times three turns, the dispatcher keeping up;
    the last three turns queue two events. *)
Definition charge (r : result t) : result t :=
  dispatch 1 (Nat.iter 7 charge_unit r).

Definition reply_first (text txt : string) (c : t) : result t :=
  charge (answer txt (prompt text c)).

Definition charge_first (text txt : string) (c : t) : result t :=
  answer txt (charge (prompt text c)).

(** The device between interactions: running, both flags down, the line
    buffer empty, the dial at rest with its counters as [__init__] and a
    completed charge leave them, the bar of six segments. *)
Definition idle (c : t) : bool :=
  is_running c && negb (loading_bar_full c) &&
  negb (LocalLLM.llm_output_ready (llm c)) &&
  negb (PyText.nonempty (LocalLLM.user_input (llm c))) &&
  (RotaryEncoderClass.steps (rotary c) =? 0) &&
  (RotaryEncoderClass.rotation_count (rotary c) =? 0) &&
  (RotaryEncoderClass.loading_progress (rotary c) =? -1) &&
  (EpaperDisplay.num_bars (display c) =? 6).

(** The drawing routines entered in the course of one interaction. *)
Definition session_calls (text txt : string) : list EpaperDisplay.Call :=
  [EpaperDisplay.Call_loadingbar; EpaperDisplay.Call_display_user_input text]
  ++ map EpaperDisplay.Call_update_loading_bar [0; 1; 2; 3; 4; 5; -1]
  ++ [EpaperDisplay.Call_display_response txt].

End Session.


(** * Properties *)

(** ** The event queue *)

Section QueueProperties.

Lemma get_put_empty (e : Event) : get (put e []) = Some (e, []).
Proof. reflexivity. Qed.

(** C2. Clearing the queue and then pushing [e] leaves exactly [e],
    however many events were queued before: the next [get] returns [e]
    and nothing older is left.  The Enter key runs this sequence with
    the [INPUTSENT] event, and pushes nothing after it. *)
Theorem clear_then_put_leaves_only_the_pushed_event :
  forall (q : Queue) (e : Event),
    put e (clear q) = [e] /\
    get (put e (clear q)) = Some (e, []) /\
    count_type (type e) (put e (clear q)) = 1%nat /\
    forall s : LocalLLM.t,
      snd (LocalLLM.on_press LocalLLM.Key_enter s q) = [inputsent] /\
      get (snd (LocalLLM.on_press LocalLLM.Key_enter s q)) = Some (inputsent, []).
Proof.
  intros q e. repeat split.
  unfold count_type, put, clear. cbn.
  destruct (type e); reflexivity.
Qed.

End QueueProperties.

(** ** The dial *)

Section DialProperties.
Import RotaryEncoderClass.

Lemma set_steps_set_steps (a b : Z) (r : t) :
  set_steps a (set_steps b r) = set_steps a r.
Proof. reflexivity. Qed.

Lemma set_steps_same (r : t) : set_steps (steps r) r = r.
Proof. destruct r; reflexivity. Qed.

Lemma rotation_detected_inactive (r : t) (q : Queue) :
  is_running r = false -> rotation_detected r q = (r, q).
Proof. intros H. unfold rotation_detected. now rewrite H. Qed.

Lemma rotation_detected_below (r : t) (q : Queue) :
  Z.abs (steps r) < CPR -> rotation_detected r q = (r, q).
Proof.
  intros H. unfold rotation_detected.
  destruct (is_running r); [|reflexivity].
  destruct (Z.leb_spec CPR (Z.abs (steps r))); [lia|reflexivity].
Qed.

Lemma encoder_step_inactive (d : Z) (r : t) (q : Queue) :
  is_running r = false ->
  encoder_step d (r, q) = (set_steps (steps r + d) r, q).
Proof.
  intros H. unfold encoder_step. cbn [fst snd].
  now apply rotation_detected_inactive.
Qed.

Lemma encoder_steps_inactive (ds : list Z) : forall (r : t) (q : Queue),
  is_running r = false ->
  fold_left (fun rq d => encoder_step d rq) ds (r, q) =
    (set_steps (fold_left Z.add ds (steps r)) r, q).
Proof.
  induction ds as [|d ds IH]; intros r q H; cbn [fold_left].
  - now rewrite set_steps_same.
  - rewrite encoder_step_inactive, IH by assumption. reflexivity.
Qed.

(** A callback on the active dial counts one turn however many steps the
    encoder holds. *)
Lemma rotation_detected_surplus (s : Z) (r : t) (q : Queue) :
  CPR <= Z.abs s -> is_running r = true ->
  rotation_detected (set_steps s r) q =
    rotation_detected (set_steps (Z.sgn s * CPR) r) q /\
  steps (fst (rotation_detected (set_steps s r) q)) = 0.
Proof.
  intros Hs Hrun. unfold rotation_detected.
  cbn [is_running steps set_steps].
  assert (E1 : (CPR <=? Z.abs s) = true) by (apply Z.leb_le; exact Hs).
  assert (E2 : (CPR <=? Z.abs (Z.sgn s * CPR)) = true)
    by (apply Z.leb_le; unfold CPR in *; lia).
  assert (E3 : (0 <? Z.sgn s * CPR) = (0 <? s))
    by (unfold CPR in *; destruct (Z.ltb_spec 0 s), (Z.ltb_spec 0 (Z.sgn s * 2048)); lia).
  rewrite E1, E2, E3, Hrun.
  split.
  - destruct (0 <? s); reflexivity.
  - destruct (0 <? s); cbn -[Z.modulo Z.leb Z.eqb Z.add Z.sub];
      destruct (_ mod 3 =? 0); cbn -[Z.leb Z.add]; try reflexivity;
      destruct (6 <=? _); reflexivity.
Qed.




(** Detents short of a full turn only move the encoder counter. *)
Lemma partial_turn (d : Z) (r : t) (q : Queue) (n : nat) :
  Z.abs d = 1 -> steps r = 0 -> Z.of_nat n < CPR ->
  Nat.iter n (encoder_step d) (r, q) = (set_steps (d * Z.of_nat n) r, q).
Proof.
  intros Hd H0. induction n as [|n IH]; intros Hn.
  - rewrite Z.mul_0_r, <- H0, set_steps_same. reflexivity.
  - rewrite Nat.iter_succ, IH by lia.
    unfold encoder_step. cbn [fst snd]. rewrite set_steps_set_steps.
    cbn [steps set_steps].
    replace (d * Z.of_nat n + d) with (d * Z.of_nat (S n)) by lia.
    apply rotation_detected_below. cbn [steps set_steps].
    rewrite Z.abs_mul, Hd. lia.
Qed.

Lemma full_turn_from_rest (d : Z) (r : t) (q : Queue) :
  Z.abs d = 1 -> steps r = 0 -> full_turn d (r, q) = turn d r q.
Proof.
  intros Hd H0. unfold full_turn.
  change (Z.to_nat CPR) with (S (Z.to_nat 2047)).
  rewrite Nat.iter_succ, partial_turn by (auto; unfold CPR; lia).
  unfold encoder_step, turn. cbn [fst snd]. rewrite set_steps_set_steps.
  cbn [steps set_steps]. f_equal. f_equal. unfold CPR. lia.
Qed.

(** What one full turn does to an active dial. *)
Lemma turn_active (d : Z) (r : t) (q : Queue) :
  Z.abs d = 1 -> is_running r = true ->
  turn d r q =
    let n := rotation_count r + d in
    if n mod 3 =? 0 then
      if 6 <=? loading_progress r + 1
      then (mk false 0 0 (-1) true,
            q ++ [bar_update (loading_progress r + 1); bar_full])
      else (mk true 0 n (loading_progress r + 1) true,
            q ++ [bar_update (loading_progress r + 1)])
    else (mk true 0 n (loading_progress r) false, q).
Proof.
  intros Hd Hrun.
  assert (Hcases : d = 1 \/ d = -1) by lia.
  destruct r as [run st rc lp met]. cbn in Hrun. subst run.
  unfold turn, rotation_detected, put, stop.
  destruct Hcases; subst d; cbn -[Z.modulo Z.add Z.sub Z.leb Z.eqb];
    change (rc - 1) with (rc + -1);
    destruct (_ mod 3 =? 0); [destruct (6 <=? lp + 1)| |destruct (6 <=? lp + 1)|];
    try reflexivity; rewrite <- app_assoc; reflexivity.
Qed.

Ltac one_turn :=
  rewrite full_turn_from_rest, turn_active by (solve [reflexivity | assumption]);
  cbv zeta; cbn [rotation_count loading_progress];
  match goal with
  | |- context [?x mod 3 =? 0] =>
      destruct (Z.eqb_spec (x mod 3) 0);
      try (exfalso; Z.to_euclidean_division_equations; lia)
  end.

(** Three full turns in one direction, from a count that is a multiple
    of three: the first two only move the count, the third charges. *)
Lemma three_turns (d : Z) (r : t) (q : Queue) :
  d = 1 \/ d = -1 ->
  is_running r = true -> steps r = 0 -> rotation_count r mod 3 = 0 ->
  full_turns 3 d (r, q) =
    if 6 <=? loading_progress r + 1
    then (mk false 0 0 (-1) true,
          q ++ [bar_update (loading_progress r + 1); bar_full])
    else (mk true 0 (rotation_count r + 3 * d) (loading_progress r + 1) true,
          q ++ [bar_update (loading_progress r + 1)]).
Proof.
  intros [-> | ->] Hrun Hst Hmod; unfold full_turns;
    rewrite !Nat.iter_succ; cbn [Nat.iter nat_rect];
    do 3 one_turn;
    (destruct (6 <=? loading_progress r + 1); [reflexivity|]);
    do 2 f_equal; lia.
Qed.

(** C3, as the code has it.  From the armed dial, 3 clockwise turns push
    one [BAR_UPDATE] with unit 0; 18 turns push six, with units 0 to 5,
    and no [BAR_FULL], and leave the dial active with 18 turns counted
    and progress 5; the 21st turn pushes a seventh [BAR_UPDATE] with
    unit 6 and then [BAR_FULL], resets both counters and stops the
    dial. *)
Theorem clockwise_charge_scenario :
  full_turns 3 1 (armed, []) = (mk true 0 3 0 true, [bar_update 0]) /\
  full_turns 18 1 (armed, []) =
    (mk true 0 18 5 true, map bar_update [0; 1; 2; 3; 4; 5]) /\
  full_turns 21 1 (armed, []) =
    (mk false 0 0 (-1) true,
     map bar_update [0; 1; 2; 3; 4; 5; 6] ++ [bar_full]).
Proof. repeat split; vm_compute; reflexivity. Qed.

(** C3 as stated fails: after 18 clockwise turns there is no [BAR_FULL]
    in the queue and the dial has not been reset. *)
Lemma eighteen_turns_do_not_complete_the_charge :
  ~ (snd (full_turns 18 1 (armed, [])) =
       map bar_update [0; 1; 2; 3; 4; 5] ++ [bar_full] /\
     rotation_count (fst (full_turns 18 1 (armed, []))) = 0 /\
     loading_progress (fst (full_turns 18 1 (armed, []))) = -1 /\
     is_running (fst (full_turns 18 1 (armed, []))) = false).
Proof. intros (_ & _ & _ & H). vm_compute in H. discriminate H. Qed.

(** C10. With the dial active and at rest on a count that is a multiple
    of three, three counterclockwise turns charge exactly as three
    clockwise turns do: the same events are pushed, progress and the
    active flag end up the same, and the count is again a multiple of
    three; short of completion the count has gone down by three,
    progress up by one, and the one event pushed is the [BAR_UPDATE]
    with the new progress. *)
Theorem counterclockwise_charges_like_clockwise (r : t) (q : Queue) :
  is_running r = true -> steps r = 0 -> rotation_count r mod 3 = 0 ->
  let ccw := full_turns 3 (-1) (r, q) in
  let cw := full_turns 3 1 (r, q) in
  snd ccw = snd cw /\
  loading_progress (fst ccw) = loading_progress (fst cw) /\
  is_running (fst ccw) = is_running (fst cw) /\
  rotation_count (fst ccw) mod 3 = 0 /\
  (loading_progress r + 1 < 6 ->
     rotation_count (fst ccw) = rotation_count r - 3 /\
     loading_progress (fst ccw) = loading_progress r + 1 /\
     snd ccw = q ++ [bar_update (loading_progress r + 1)]).
Proof.
  intros Hrun Hst Hmod. cbv zeta.
  rewrite (three_turns (-1)), (three_turns 1) by auto.
  destruct (Z.leb_spec 6 (loading_progress r + 1)) as [Hfull|Hless];
    cbn [fst snd loading_progress is_running rotation_count].
  - repeat split; intros; try reflexivity; lia.
  - repeat split; try reflexivity; Z.to_euclidean_division_equations; lia.
Qed.

Lemma counterclockwise_charges_like_clockwise_witness :
  is_running armed = true /\ steps armed = 0 /\
  rotation_count armed mod 3 = 0 /\ loading_progress armed + 1 < 6 /\
  snd (full_turns 3 (-1) (armed, [])) = [] ++ [bar_update (loading_progress armed + 1)].
Proof.
  do 4 (split; [reflexivity|]).
  destruct (counterclockwise_charges_like_clockwise armed []
              eq_refl eq_refl eq_refl) as (_ & _ & _ & _ & H).
  destruct (H eq_refl) as (_ & _ & Hq). exact Hq.
Defined.

End DialProperties.

(** ** Key capture *)

Section KeyProperties.
Import LocalLLM.

Lemma length_snoc (pre : string) (ch : ascii) :
  String.length (pre ++ String ch EmptyString)%string = S (String.length pre).
Proof. induction pre as [|a pre IH]; cbn; [reflexivity | now rewrite IH]. Qed.

Lemma substring_prefix (pre rest : string) :
  substring 0 (String.length pre) (pre ++ rest)%string = pre.
Proof.
  induction pre as [|a pre IH]; cbn.
  - destruct rest; reflexivity.
  - now rewrite IH.
Qed.

Lemma drop_last_snoc (pre : string) (ch : ascii) :
  drop_last (pre ++ String ch EmptyString)%string = pre.
Proof.
  unfold drop_last. rewrite length_snoc.
  replace (S (String.length pre) - 1)%nat with (String.length pre) by lia.
  apply substring_prefix.
Qed.

(** C6. Backspace replaces the buffer by the buffer without its last
    character: the empty buffer stays empty, [pre ++ ch] becomes [pre].
    It counts as a keystroke; the conversation, the two ready flags, the
    stored response and [is_running] are left as they were, and the
    only other effect is that of the keystroke counter reaching three. *)
Theorem backspace_removes_last_character (s : t) (q : Queue) :
  let s' := fst (on_press Key_backspace s q) in
  let q' := snd (on_press Key_backspace s q) in
  user_input s' = drop_last (user_input s) /\
  drop_last EmptyString = EmptyString /\
  (forall (pre : string) (ch : ascii),
     drop_last (pre ++ String ch EmptyString)%string = pre) /\
  messages s' = messages s /\
  input_ready s' = input_ready s /\
  llm_output_ready s' = llm_output_ready s /\
  response s' = response s /\
  is_running s' = is_running s /\
  key_count s' = (if 3 <=? key_count s + 1 then 0 else key_count s + 1) /\
  input_counter s' =
    (if 3 <=? key_count s + 1 then input_counter s + 1 else input_counter s) /\
  q' = (if 3 <=? key_count s + 1 then q ++ [keyboardinput] else q).
Proof.
  cbv zeta. unfold on_press. cbn [on_press_key key_count set_key_count].
  destruct (3 <=? key_count s + 1); cbn;
    repeat split; auto using drop_last_snoc.
Qed.

Lemma on_press_key_accepted (k : Key) (s : t) (q : Queue) :
  accepted k = true ->
  key_count (fst (on_press_key k s q)) = key_count s + 1 /\
  input_counter (fst (on_press_key k s q)) = input_counter s /\
  snd (on_press_key k s q) = q.
Proof.
  destruct k as [[c|]| | | |]; cbn; try discriminate; intros H;
    rewrite ?H; cbn; auto.
Qed.

(** One counted keystroke: the counter goes round modulo three and the
    progress event is pushed when it wraps. *)
Lemma on_press_accepted (k : Key) (s : t) (q : Queue) :
  accepted k = true -> 0 <= key_count s < 3 ->
  key_count (fst (on_press k s q)) = (key_count s + 1) mod 3 /\
  snd (on_press k s q) =
    q ++ repeat keyboardinput (Z.to_nat ((key_count s + 1) / 3)).
Proof.
  intros Hk Hc. unfold on_press.
  destruct (on_press_key_accepted k s q Hk) as (Hkc & _ & Hq).
  destruct (on_press_key k s q) as [s1 q1]. cbn [fst snd] in *. subst q1.
  rewrite Hkc.
  assert (Hcase : key_count s = 0 \/ key_count s = 1 \/ key_count s = 2) by lia.
  destruct Hcase as [E | [E | E]]; rewrite E in Hkc |- *;
    cbn in Hkc |- *; rewrite ?app_nil_r; auto.
Qed.

Lemma press_all_accepted (ks : list Key) : forall (s : t) (q : Queue),
  forallb accepted ks = true -> 0 <= key_count s < 3 ->
  key_count (fst (press_all ks (s, q))) =
    (key_count s + Z.of_nat (List.length ks)) mod 3 /\
  snd (press_all ks (s, q)) =
    q ++ repeat keyboardinput
           (Z.to_nat ((key_count s + Z.of_nat (List.length ks)) / 3)).
Proof.
  induction ks as [|k ks IH]; intros s q Hall Hc.
  - cbn [press_all fold_left List.length Z.of_nat fst snd].
    rewrite Z.add_0_r, Z.mod_small, Z.div_small by lia.
    cbn. now rewrite app_nil_r.
  - cbn [forallb] in Hall. apply andb_true_iff in Hall as [Hk Hall].
    destruct (on_press_accepted k s q Hk Hc) as [Hkc Hq].
    unfold press_all. cbn [fold_left fst snd].
    destruct (on_press k s q) as [s1 q1] eqn:E. cbn [fst snd] in Hkc, Hq.
    fold (press_all ks (s1, q1)).
    assert (Hc1 : 0 <= key_count s1 < 3)
      by (rewrite Hkc; apply Z.mod_pos_bound; lia).
    destruct (IH s1 q1 Hall Hc1) as [IHk IHq].
    rewrite IHk, IHq, Hkc, Hq. cbn [List.length].
    split.
    + rewrite Zplus_mod_idemp_l. f_equal. lia.
    + rewrite <- app_assoc, <- repeat_app. do 2 f_equal.
      rewrite <- Z2Nat.inj_add.
      * f_equal. Z.to_euclidean_division_equations. lia.
      * Z.to_euclidean_division_equations. lia.
      * Z.to_euclidean_division_equations. lia.
Qed.

Lemma count_type_repeat (n : nat) (q : Queue) :
  count_type KEYBOARDINPUT (q ++ repeat keyboardinput n) =
    (count_type KEYBOARDINPUT q + n)%nat.
Proof.
  unfold count_type. rewrite filter_app, length_app. f_equal.
  induction n as [|n IH]; cbn; [reflexivity | now rewrite IH].
Qed.

Lemma to_nat_div3 (k : nat) (n : nat) :
  Z.to_nat ((Z.of_nat k + Z.of_nat n) / 3) = ((k + n) / 3)%nat.
Proof.
  rewrite <- Nat2Z.inj_add.
  change 3 with (Z.of_nat 3). rewrite <- Nat2Z.inj_div.
  apply Nat2Z.id.
Qed.

(** C4, as the code has it.  With [k0] the keystroke counter at the
    start ([0 <= k0 < 3]), [n] counted keystrokes push
    [(k0 + n) / 3] [KEYBOARDINPUT] events and nothing else.  The
    counter starts at 2 in a fresh [LocalLLM], so the first capture
    pushes [(2 + n) / 3] of them, the first one on the first keystroke;
    Enter resets the counter to 0, so a capture that follows an Enter
    pushes [n / 3], one per completed group of three. *)
Theorem keyboard_progress_count (ks : list Key) (s : t) (q : Queue) :
  forallb accepted ks = true -> 0 <= key_count s < 3 ->
  snd (press_all ks (s, q)) =
    q ++ repeat keyboardinput
           (Z.to_nat ((key_count s + Z.of_nat (List.length ks)) / 3)) /\
  key_count (fst (press_all ks (s, q))) =
    (key_count s + Z.of_nat (List.length ks)) mod 3 /\
  count_type KEYBOARDINPUT (snd (press_all ks (init, []))) =
    ((2 + List.length ks) / 3)%nat /\
  count_type KEYBOARDINPUT (snd (press_all ks (on_press Key_enter s q))) =
    (List.length ks / 3)%nat.
Proof.
  intros Hall Hc.
  destruct (press_all_accepted ks s q Hall Hc) as [Hk Hq].
  split; [exact Hq|]. split; [exact Hk|]. split.
  - destruct (press_all_accepted ks init [] Hall) as [_ H0]; [cbn; lia|].
    etransitivity; [apply f_equal; exact H0|].
    rewrite count_type_repeat.
    change (key_count init) with (Z.of_nat 2). now rewrite to_nat_div3.
  - change (on_press Key_enter s q)
      with (set_input_ready true (set_key_count 0 s), [inputsent]).
    destruct (press_all_accepted ks (set_input_ready true (set_key_count 0 s))
                [inputsent] Hall) as [_ H0]; [cbn; lia|].
    etransitivity; [apply f_equal; exact H0|].
    rewrite count_type_repeat.
    change (key_count (set_input_ready true (set_key_count 0 s)))
      with (Z.of_nat 0).
    now rewrite to_nat_div3.
Qed.

Lemma keyboard_progress_count_witness :
  forallb accepted [KeyCode (Some "h"%string); Key_space; Key_backspace;
                    KeyCode (Some "i"%string)] = true /\
  0 <= key_count init < 3 /\
  snd (press_all [KeyCode (Some "h"%string); Key_space; Key_backspace;
                  KeyCode (Some "i"%string)] (init, [])) =
    [keyboardinput; keyboardinput].
Proof.
  split; [reflexivity|]. split; [cbn; lia|].
  exact (proj1 (keyboard_progress_count
                  [KeyCode (Some "h"%string); Key_space; Key_backspace;
                   KeyCode (Some "i"%string)] init []
                  eq_refl (conj (fun H => Z.le_0_2 H) eq_refl))).
Defined.

(** C4 as stated fails for the first capture: the very first accepted
    keystroke pushes a [KEYBOARDINPUT], before any group of three is
    complete. *)
Lemma first_keystroke_already_pushes_progress :
  ~ (forall ks : list Key,
       forallb accepted ks = true ->
       count_type KEYBOARDINPUT (snd (press_all ks (init, []))) =
         (List.length ks / 3)%nat).
Proof.
  intros H. specialize (H [KeyCode (Some "a"%string)] eq_refl).
  vm_compute in H. discriminate H.
Qed.

End KeyProperties.

(** ** The model cycle *)

Section WorkerProperties.
Import LocalLLM.

(** The cycle when the model answers and the log is written. *)
Lemma run_iteration_success (st : St) (txt : string) :
  input_ready (fst st) = true ->
  exists st',
    run_iteration [] (Ok txt) (Ok tt) st = Some st' /\
    snd st' = snd st ++ [llm_response (PyChat txt)] /\
    messages (fst st') =
      messages (fst st) ++ [mkMessage "user" (user_input (fst st));
                             mkMessage "assistant" txt] /\
    response (fst st') = Some (PyChat txt) /\
    llm_output_ready (fst st') = true /\
    input_ready (fst st') = false /\
    user_input (fst st') = EmptyString.
Proof.
  destruct st as [s q]. cbn [fst snd]. intros Hready.
  unfold run_iteration, run_begin, run_finish, press_all.
  cbn [fold_left fst snd input_ready set_input_counter].
  rewrite Hready. eexists. split; [reflexivity|].
  cbn. rewrite <- app_assoc. repeat split.
Qed.

(** C7, evaluated on the code.  When the call to the model raises [e],
    [get_llm_response] returns the string ["Error: " ++ str(e)], [run]
    stores it and then reads [.message.content] from it, which raises
    [AttributeError]; the handler of [run] pushes an [LLM_RESPONSE]
    whose payload is the error text of that [AttributeError] and the
    loop goes on.  The conversation has gained the user entry only, no
    assistant entry; [llm_output_ready] is not raised and [input_ready]
    and the buffer are not reset. *)
Theorem model_failure_cycle (st : St) (e : Exn) (log : result unit) :
  input_ready (fst st) = true ->
  exists st',
    run_iteration [] (Raise e) log st = Some st' /\
    snd st' =
      snd st ++ [llm_response
                   (PyStr "Error: 'str' object has no attribute 'message'")] /\
    messages (fst st') =
      messages (fst st) ++ [mkMessage "user" (user_input (fst st))] /\
    response (fst st') = Some (PyStr ("Error: " ++ exn_str e)) /\
    llm_output_ready (fst st') = llm_output_ready (fst st) /\
    input_ready (fst st') = true /\
    user_input (fst st') = user_input (fst st) /\
    is_running (fst st') = is_running (fst st).
Proof.
  destruct st as [s q]. cbn [fst snd]. intros Hready.
  unfold run_iteration, run_begin, run_finish, press_all.
  cbn [fold_left fst snd input_ready set_input_counter].
  rewrite Hready. eexists. split; [reflexivity|].
  cbn. repeat split. exact Hready.
Qed.

Lemma model_failure_cycle_witness :
  input_ready (fst (press_all [KeyCode (Some "h"%string);
                               KeyCode (Some "i"%string); Key_enter]
                      (init, []))) = true /\
  exists st',
    run_iteration [] (Raise (OtherError "connection refused")) (Ok tt)
      (press_all [KeyCode (Some "h"%string); KeyCode (Some "i"%string);
                  Key_enter] (init, [])) = Some st' /\
    messages (fst st') = [system_prompt; mkMessage "user" "hi"].
Proof.
  split; [reflexivity|].
  destruct (model_failure_cycle
              (press_all [KeyCode (Some "h"%string);
                          KeyCode (Some "i"%string); Key_enter] (init, []))
              (OtherError "connection refused") (Ok tt) eq_refl)
    as (st' & Hrun & _ & Hmsgs & _).
  exists st'. split; [exact Hrun|]. exact Hmsgs.
Defined.

End WorkerProperties.

(** ** The dispatcher *)

Section DispatchProperties.
Import DeviceController Gate.

(** One evaluation of the gate, by either of its two events. *)
Lemma handle_gate_event (e : Event) (c : t) :
  gate_event e = true -> reply_ok c = true ->
  exists c',
    handle_event e c = Ok c' /\
    reply_ok c' = true /\
    EpaperDisplay.calls (display c') =
      EpaperDisplay.calls (display c) ++ shown e c /\
    List.length (shown e c) = (if gate_ready e c then 1%nat else 0%nat) /\
    LocalLLM.llm_output_ready (llm c') =
      LocalLLM.llm_output_ready (llm c) && negb (gate_ready e c) /\
    loading_bar_full c' =
      (loading_bar_full c || is_bar_full e) && negb (gate_ready e c) /\
    EpaperDisplay.update_queue (display c') =
      EpaperDisplay.update_queue (display c).
Proof.
  destruct e as [ty dat], c as [q r d l cp ui cr lp run full].
  destruct l as [lrun kc ic ir ready inp ms resp].
  unfold gate_event, reply_ok, handle_event, check_display_response,
    llm_response_content, shown, gate_ready, is_bar_full.
  destruct ty; cbn; try discriminate; intros _ Hok;
    rewrite ?orb_true_r; destruct ready; cbn in *;
    try (destruct full; cbn);
    try (destruct resp as [[| | |txt]|]; try discriminate; cbn);
    (eexists; split; [reflexivity|]); cbn; rewrite ?app_nil_r;
    repeat split; auto.
Qed.

Lemma filter_shown (e : Event) (c : t) :
  filter is_display_response (shown e c) = shown e c.
Proof.
  unfold shown. destruct (gate_ready e c); [|reflexivity].
  destruct (LocalLLM.response (llm c)) as [[| | |txt]|]; reflexivity.
Qed.

Lemma responses_shown_app (c c' : t) (e : Event) :
  EpaperDisplay.calls (display c') =
    EpaperDisplay.calls (display c) ++ shown e c ->
  responses_shown c' = (responses_shown c + List.length (shown e c))%nat.
Proof.
  intros H. unfold responses_shown.
  now rewrite H, filter_app, length_app, filter_shown.
Qed.

(** X20.  One evaluation of the gate by the dispatcher, in a state where
    [llm.response] is a reply object whenever [llm_output_ready] is up:
    handling [BAR_FULL] or [LLM_RESPONSE] returns, and
    [display_response] is entered exactly when both flags are up at the
    gate, exactly once, with the content of the reply [llm.response]
    holds at that moment; both flags are down afterwards, and when the
    gate does not fire the flags are kept ([BAR_FULL] having raised
    [loading_bar_full]).  This is a property of one call of
    [handle_event]; it says nothing of what the worker thread does
    between two calls. *)
Lemma gate_fires_once_when_reply_is_stored (c : t) (e : Event) :
  reply_ok c = true ->
  gate_event e = true ->
  exists c',
    handle_event e c = Ok c' /\
    reply_ok c' = true /\
    EpaperDisplay.calls (display c') =
      EpaperDisplay.calls (display c) ++ shown e c /\
    List.length (shown e c) = (if gate_ready e c then 1%nat else 0%nat) /\
    responses_shown c' =
      (responses_shown c + if gate_ready e c then 1 else 0)%nat /\
    LocalLLM.llm_output_ready (llm c') =
      LocalLLM.llm_output_ready (llm c) && negb (gate_ready e c) /\
    loading_bar_full c' =
      (loading_bar_full c || is_bar_full e) && negb (gate_ready e c) /\
    LocalLLM.llm_output_ready (llm c') && loading_bar_full c' = false.
Proof.
  intros Hok He.
  destruct (handle_gate_event e c He Hok)
    as (c' & Hrun & Hok' & Hcalls & Hlen & Hready & Hfull & _).
  exists c'. repeat split; auto.
  - now rewrite (responses_shown_app _ _ _ Hcalls), Hlen.
  - rewrite Hready, Hfull. unfold gate_ready.
    destruct (LocalLLM.llm_output_ready (llm c)), (loading_bar_full c),
      (is_bar_full e); reflexivity.
Qed.

Example gate_fires_once_when_reply_is_stored_example :
  reply_ok (System.answered "Have nothing in your houses") = true /\
  gate_event bar_full = true /\
  exists c',
    handle_event bar_full (System.answered "Have nothing in your houses")
      = Ok c' /\
    responses_shown c' = 1%nat /\
    LocalLLM.llm_output_ready (llm c') = false /\
    loading_bar_full c' = false.
Proof.
  split; [reflexivity|]. split; [reflexivity|].
  destruct (gate_fires_once_when_reply_is_stored
              (System.answered "Have nothing in your houses") bar_full
              eq_refl eq_refl)
    as (c' & Hrun & _ & _ & _ & Hshown & Hready & Hfull & _).
  exists c'. split; [exact Hrun|].
  split; [exact Hshown|]. split; [exact Hready|exact Hfull].
Defined.

(** C1, evaluated on the code.  In the run [second_prompt_fails] a reply
    is stored and [llm_output_ready] raised, a second prompt is sent
    before the charge completes and its call to the model fails, so that
    [llm.response] holds the error string while the flag is still up.
    When the dispatcher then comes to [BAR_FULL], both flags are up at the
    gate, and reading [.message.content] from the string raises
    [AttributeError] out of [handle_event] and [process_events]:
    [display_response] is not entered for the pair, and the flags are
    not cleared. *)
Theorem gate_raises_on_stored_error_string :
  exists c,
    System.dispatch 6 System.second_prompt_fails = Ok c /\
    event_queue c = [bar_full] /\
    LocalLLM.llm_output_ready (llm c) = true /\
    LocalLLM.response (llm c) = Some (PyStr "Error: connection refused") /\
    gate_ready bar_full c = true /\
    responses_shown c = 0%nat /\
    process_step c =
      Raise (AttributeError "'str' object has no attribute 'message'") /\
    System.dispatch 7 System.second_prompt_fails =
      Raise (AttributeError "'str' object has no attribute 'message'").
Proof. eexists. vm_compute. repeat split. Qed.

(** What [handle_event] does to the display, for every event. *)
Lemma handle_event_calls (e : Event) (c : t) :
  reply_ok c = true ->
  exists c',
    handle_event e c = Ok c' /\
    EpaperDisplay.calls (display c') =
      EpaperDisplay.calls (display c) ++ dispatch_calls e c /\
    EpaperDisplay.update_queue (display c') =
      EpaperDisplay.update_queue (display c).
Proof.
  intros Hok. destruct (gate_event e) eqn:He.
  - destruct (handle_gate_event e c He Hok)
      as (c' & Hrun & _ & Hcalls & _ & _ & _ & Hq).
    exists c'. split; [exact Hrun|]. split; [|exact Hq].
    rewrite Hcalls. unfold dispatch_calls, gate_event in *.
    destruct (type e); try discriminate; reflexivity.
  - unfold handle_event, dispatch_calls, gate_event in *.
    destruct (type e); try discriminate; eexists;
      (split; [reflexivity|]); cbn; rewrite ?app_nil_r; auto.
    + unfold EpaperDisplay.update_loading_bar.
      destruct (_ <? _); cbn; auto.
    + now rewrite <- app_assoc.
Qed.

(** C8, as the code has it.  [handle_event] carries out every render
    request itself, by entering the display's drawing routines one
    after the other in dispatch order, none left out; it never puts
    anything on the display's [update_queue], which starts empty.  An
    iteration of the display's [run] takes the oldest item off that
    queue, one at a time, and enters no drawing routine. *)
Theorem render_requests_are_direct_calls (e : Event) (c : t) :
  reply_ok c = true ->
  (exists c',
     handle_event e c = Ok c' /\
     EpaperDisplay.calls (display c') =
       EpaperDisplay.calls (display c) ++ dispatch_calls e c /\
     EpaperDisplay.update_queue (display c') =
       EpaperDisplay.update_queue (display c)) /\
  EpaperDisplay.update_queue (display init) = [] /\
  (forall d : EpaperDisplay.t,
     EpaperDisplay.update_queue (fst (EpaperDisplay.run_step d)) =
       tl (EpaperDisplay.update_queue d) /\
     EpaperDisplay.calls (fst (EpaperDisplay.run_step d)) =
       EpaperDisplay.calls d).
Proof.
  intros Hok. split; [now apply handle_event_calls|].
  split; [reflexivity|].
  intros d. unfold EpaperDisplay.run_step.
  destruct (EpaperDisplay.update_queue d) eqn:E; cbn; rewrite ?E; auto.
Qed.

Lemma render_requests_are_direct_calls_witness :
  reply_ok init = true /\
  exists c',
    handle_event inputsent init = Ok c' /\
    EpaperDisplay.calls (display c') =
      [EpaperDisplay.Call_loadingbar; EpaperDisplay.Call_display_user_input EmptyString] /\
    EpaperDisplay.update_queue (display c') = [].
Proof.
  split; [reflexivity|].
  destruct (render_requests_are_direct_calls inputsent init eq_refl)
    as [(c' & Hrun & Hcalls & Hq) _].
  exists c'. split; [exact Hrun|]. split; [exact Hcalls|exact Hq].
Defined.

(** C8 as stated fails: dispatch renders without the queue ever being
    populated. *)
Lemma dispatch_renders_without_the_update_queue :
  ~ (forall (e : Event) (c c' : t),
       handle_event e c = Ok c' ->
       EpaperDisplay.calls (display c') <> EpaperDisplay.calls (display c) ->
       EpaperDisplay.update_queue (display c') <>
         EpaperDisplay.update_queue (display c)).
Proof.
  intros H.
  apply (H keyboardinput init _ eq_refl); [discriminate|reflexivity].
Qed.

(** C9, as the code has it.  Whatever data the [BAR_UPDATE] event
    carries, [update_loading_bar] is entered with the dial's
    [loading_progress] as it is when the event is dispatched. *)
Theorem bar_update_forwards_the_dial_progress (v : PyVal) (c : t) :
  exists c',
    handle_event (mkEvent BAR_UPDATE v) c = Ok c' /\
    EpaperDisplay.calls (display c') =
      EpaperDisplay.calls (display c) ++
      [EpaperDisplay.Call_update_loading_bar
         (RotaryEncoderClass.loading_progress (rotary c))] /\
    rotary c' = rotary c /\
    event_queue c' = event_queue c.
Proof.
  eexists. split; [reflexivity|]. cbn.
  unfold EpaperDisplay.update_loading_bar.
  destruct (_ <? _); repeat split.
Qed.

(** C9 as stated fails: the [BAR_UPDATE] with unit 6 that completes the
    charge is dispatched after the dial has reset itself, and unit -1
    is forwarded. *)
Lemma bar_update_payload_is_not_forwarded :
  ~ (forall (n : Z) (c c' : t),
       handle_event (bar_update n) c = Ok c' ->
       EpaperDisplay.calls (display c') =
         EpaperDisplay.calls (display c) ++
         [EpaperDisplay.Call_update_loading_bar n]).
Proof.
  intros H. specialize (H 6 after_full_charge _ eq_refl).
  vm_compute in H. discriminate H.
Qed.

End DispatchProperties.

(** * Further properties *)

(** ** The dial, for any sequence of detents *)

Section DialInvariants.
Import RotaryEncoderClass Units.

(** The outcomes of one callback. *)
Lemma rotation_detected_cases (r : t) (q : Queue) :
  -1 <= loading_progress r <= 5 ->
  let r' := fst (rotation_detected r q) in
  let q' := snd (rotation_detected r q) in
  (q' = q /\ loading_progress r' = loading_progress r /\
   is_running r' = is_running r) \/
  (q' = q ++ [bar_update (loading_progress r + 1)] /\
   loading_progress r' = loading_progress r + 1 /\ loading_progress r < 5 /\
   is_running r = true /\ is_running r' = true) \/
  (q' = q ++ [bar_update 6; bar_full] /\
   loading_progress r' = -1 /\ loading_progress r = 5 /\
   is_running r = true /\ is_running r' = false).
Proof.
  intros Hlp. destruct r as [run st rc lp met]. cbn [loading_progress] in Hlp.
  unfold rotation_detected, put, stop.
  cbn -[Z.modulo Z.add Z.sub Z.leb Z.eqb Z.ltb Z.abs].
  destruct run; [|cbn; auto].
  destruct (CPR <=? Z.abs st); [|cbn; auto].
  destruct (0 <? st); cbn -[Z.modulo Z.add Z.sub Z.leb Z.eqb];
    (destruct (_ mod 3 =? 0); [|cbn; auto]);
    (destruct (Z.leb_spec 6 (lp + 1)); cbn -[Z.add];
     [right; right; replace lp with 5 by lia; rewrite <- app_assoc; cbn; auto
     |right; left; repeat split; auto; lia]).
Qed.

Lemma detents_cons (d : Z) (ds : list Z) (rq : t * Queue) :
  detents (d :: ds) rq = detents ds (encoder_step d rq).
Proof. reflexivity. Qed.

Lemma count_type_app (ty : EventType) (a b : Queue) :
  count_type ty (a ++ b) = (count_type ty a + count_type ty b)%nat.
Proof. unfold count_type. now rewrite filter_app, length_app. Qed.

(** What any run of detents keeps and pushes. *)
Lemma detents_invariant (ds : list Z) : forall (r : t) (q : Queue),
  -1 <= loading_progress r <= 5 ->
  exists pushed : Queue,
    snd (detents ds (r, q)) = q ++ pushed /\
    -1 <= loading_progress (fst (detents ds (r, q))) <= 5 /\
    forallb dial_event pushed = true /\
    count_type BAR_FULL pushed =
      (if is_running r && negb (is_running (fst (detents ds (r, q))))
       then 1%nat else 0%nat) /\
    (is_running r = false -> pushed = []).
Proof.
  induction ds as [|d ds IH]; intros r q Hlp.
  - exists []. cbn. rewrite app_nil_r, andb_negb_r. repeat split; auto; lia.
  - rewrite detents_cons. unfold encoder_step. cbn [fst snd].
    set (r0 := set_steps (steps r + d) r).
    assert (Hlp0 : -1 <= loading_progress r0 <= 5) by exact Hlp.
    pose proof (rotation_detected_cases r0 q Hlp0) as Hstep. cbv zeta in Hstep.
    destruct (rotation_detected r0 q) as [r1 q1]. cbn [fst snd] in Hstep.
    change (loading_progress r0) with (loading_progress r) in Hstep.
    change (is_running r0) with (is_running r) in Hstep.
    destruct Hstep as [(Hq & Hl & Hr) | [(Hq & Hl & Hlt & Hr & Hr') | (Hq & Hl & H5 & Hr & Hr')]].
    + destruct (IH r1 q1) as (pushed & Hsnd & Hrange & Hev & Hcount & Hoff); [lia|].
      exists pushed. subst q1. rewrite Hr in Hcount, Hoff. auto.
    + destruct (IH r1 q1) as (pushed & Hsnd & Hrange & Hev & Hcount & Hoff); [lia|].
      exists (bar_update (loading_progress r + 1) :: pushed).
      subst q1. rewrite <- app_assoc in Hsnd. cbn [app] in Hsnd.
      rewrite Hr. rewrite Hr' in Hcount.
      split; [exact Hsnd|]. split; [exact Hrange|]. split; [|split].
      * cbn [forallb]. rewrite Hev, andb_true_r.
        cbn. apply andb_true_iff. split; apply Z.leb_le; lia.
      * change (bar_update (loading_progress r + 1) :: pushed)
          with ([bar_update (loading_progress r + 1)] ++ pushed).
        rewrite count_type_app, Hcount. reflexivity.
      * discriminate.
    + destruct (IH r1 q1) as (pushed & Hsnd & Hrange & Hev & Hcount & Hoff); [lia|].
      specialize (Hoff Hr'). subst pushed.
      exists [bar_update 6; bar_full].
      subst q1. rewrite app_nil_r in Hsnd. rewrite Hr.
      rewrite Hr' in Hcount. cbn in Hcount.
      split; [exact Hsnd|]. split; [exact Hrange|]. split; [reflexivity|].
      split; [|discriminate].
      match goal with |- context [negb ?b] => destruct b eqn:E end.
      * exfalso.
        pose proof (encoder_steps_inactive ds r1 (q ++ [bar_update 6; bar_full]) Hr') as Hin.
        pose proof (eq_trans (eq_sym E)
                      (f_equal (fun p => is_running (fst p)) Hin)) as X.
        cbn in X. congruence.
      * reflexivity.
Qed.

(** X1.  Whatever detents arrive, in whichever directions, the dial's progress
    stays between -1 and 5 from one callback to the next, and the only
    events it pushes are [BAR_UPDATE] with a unit from 0 to 6 and
    [BAR_FULL]. *)
Theorem dial_progress_stays_in_range (ds : list Z) (r : t) (q : Queue) :
  -1 <= loading_progress r <= 5 ->
  -1 <= loading_progress (fst (detents ds (r, q))) <= 5 /\
  exists pushed : Queue,
    snd (detents ds (r, q)) = q ++ pushed /\
    forallb dial_event pushed = true.
Proof.
  intros Hlp.
  destruct (detents_invariant ds r q Hlp) as (pushed & Hq & Hrange & Hev & _).
  split; [exact Hrange|]. exists pushed. auto.
Qed.

Lemma dial_progress_stays_in_range_witness :
  -1 <= loading_progress armed <= 5 /\
  -1 <= loading_progress (fst (detents [2048; 2048; -4096; 5000] (armed, []))) <= 5.
Proof.
  split; [cbn; lia|].
  refine (proj1 (dial_progress_stays_in_range [2048; 2048; -4096; 5000]
                   armed [] _)).
  cbn; lia.
Defined.

(** X2.  One arming gives at most one [BAR_FULL]: over any run of detents the
    dial pushes [BAR_FULL] exactly when it goes from active to stopped,
    a stopped dial pushes nothing, and the dial never starts itself
    again. *)
Theorem bar_full_once_per_arming (ds : list Z) (r : t) (q : Queue) :
  -1 <= loading_progress r <= 5 ->
  exists pushed : Queue,
    snd (detents ds (r, q)) = q ++ pushed /\
    count_type BAR_FULL pushed =
      (if is_running r && negb (is_running (fst (detents ds (r, q))))
       then 1%nat else 0%nat) /\
    (is_running r = false ->
     pushed = [] /\ is_running (fst (detents ds (r, q))) = false).
Proof.
  intros Hlp.
  destruct (detents_invariant ds r q Hlp) as (pushed & Hq & _ & _ & Hcount & Hoff).
  exists pushed. split; [exact Hq|]. split; [exact Hcount|].
  intros Hr. split; [auto|].
  unfold detents. now rewrite encoder_steps_inactive.
Qed.

Lemma bar_full_once_per_arming_witness :
  -1 <= loading_progress armed <= 5 /\
  exists pushed : Queue,
    snd (detents (repeat 2048 21) (armed, [])) = [] ++ pushed /\
    count_type BAR_FULL pushed = 1%nat.
Proof.
  split; [cbn; lia|].
  destruct (bar_full_once_per_arming (repeat 2048 21) armed [])
    as (pushed & Hq & Hcount & _); [cbn; lia|].
  exists pushed. split; [exact Hq|exact Hcount].
Defined.

End DialInvariants.

(** ** Full turns *)

Section DialTurns.
Import RotaryEncoderClass Units.

Lemma units_S (lp : Z) (k : nat) :
  units lp (S k) = units lp k ++ [bar_update (lp + 1 + Z.of_nat k)].
Proof. unfold units. now rewrite seq_S, map_app. Qed.

Lemma full_turns_S (n : nat) (d : Z) (rq : t * Queue) :
  full_turns (S n) d rq = full_turn d (full_turns n d rq).
Proof. reflexivity. Qed.

Lemma div3_succ (n : nat) :
  ((S n / 3 = n / 3)%nat /\ Z.of_nat (S n) mod 3 <> 0) \/
  ((S n / 3 = S (n / 3))%nat /\ Z.of_nat (S n) mod 3 = 0).
Proof.
  pose proof (Nat.div_mod_eq n 3) as H1.
  pose proof (Nat.mod_upper_bound n 3 ltac:(lia)) as H2.
  pose proof (Nat.div_mod_eq (S n) 3) as H3.
  pose proof (Nat.mod_upper_bound (S n) 3 ltac:(lia)) as H4.
  change 3 with (Z.of_nat 3). rewrite <- Nat2Z.inj_mod.
  lia.
Qed.

(** The state after [n] turns in one direction, short of completion. *)
Lemma turns_state (d : Z) (r : t) (q : Queue) :
  d = 1 \/ d = -1 ->
  is_running r = true -> steps r = 0 -> rotation_count r mod 3 = 0 ->
  forall n : nat,
    loading_progress r + Z.of_nat (n / 3) <= 5 ->
    let rq := full_turns n d (r, q) in
    is_running (fst rq) = true /\
    steps (fst rq) = 0 /\
    rotation_count (fst rq) = rotation_count r + d * Z.of_nat n /\
    loading_progress (fst rq) = loading_progress r + Z.of_nat (n / 3) /\
    snd rq = q ++ units (loading_progress r) (n / 3).
Proof.
  intros Hd Hrun Hst Hmod. induction n as [|n IH]; intros Hlp; cbv zeta.
  - cbn. rewrite app_nil_r. repeat split; auto; lia.
  - assert (Hdiv : ((S n / 3 = n / 3)%nat /\ Z.of_nat (S n) mod 3 <> 0) \/
                   ((S n / 3 = S (n / 3))%nat /\ Z.of_nat (S n) mod 3 = 0))
      by apply div3_succ.
    assert (Hlp' : loading_progress r + Z.of_nat (n / 3) <= 5)
      by (destruct Hdiv as [[E _]|[E _]]; rewrite E in Hlp; lia).
    destruct (IH Hlp') as (Hr & Hs & Hc & Hl & Hq). clear IH.
    rewrite full_turns_S.
    destruct (full_turns n d (r, q)) as [rn qn]. cbn [fst snd] in *.
    assert (Habs : Z.abs d = 1) by lia.
    rewrite (full_turn_from_rest d rn qn Habs Hs), (turn_active d rn qn Habs Hr).
    cbv zeta. rewrite Hc, Hl, Hq.
    destruct (Z.eqb_spec ((rotation_count r + d * Z.of_nat n + d) mod 3) 0) as [E|E].
    + destruct Hdiv as [[_ Hne]|[Hdiv _]];
        [exfalso; destruct Hd; subst d; Z.to_euclidean_division_equations; lia|].
      rewrite Hdiv in Hlp |- *.
      destruct (Z.leb_spec 6 (loading_progress r + Z.of_nat (n / 3) + 1)); [lia|].
      cbn [fst snd is_running steps rotation_count loading_progress].
      rewrite units_S, app_assoc.
      repeat split; try lia.
      do 3 f_equal. lia.
    + destruct Hdiv as [[Hdiv _]|[_ He]];
        [|exfalso; destruct Hd; subst d; Z.to_euclidean_division_equations; lia].
      rewrite Hdiv.
      cbn [fst snd is_running steps rotation_count loading_progress].
      repeat split; lia.
Qed.

(** X3.  Turning the wheel [n] times in one direction, from rest on a count
    that is a multiple of three, charges one unit for every third turn:
    short of completion the count has moved by [n], progress is up by
    [n / 3], and the events pushed are the [BAR_UPDATE]s for those units,
    in order. *)
Theorem turns_charge_one_unit_per_three (n : nat) (d : Z) (r : t) (q : Queue) :
  d = 1 \/ d = -1 ->
  is_running r = true -> steps r = 0 -> rotation_count r mod 3 = 0 ->
  loading_progress r + Z.of_nat (n / 3) <= 5 ->
  let rq := full_turns n d (r, q) in
  is_running (fst rq) = true /\
  rotation_count (fst rq) = rotation_count r + d * Z.of_nat n /\
  loading_progress (fst rq) = loading_progress r + Z.of_nat (n / 3) /\
  snd rq = q ++ units (loading_progress r) (n / 3).
Proof.
  intros Hd Hrun Hst Hmod Hlp.
  destruct (turns_state d r q Hd Hrun Hst Hmod n Hlp) as (H1 & _ & H3 & H4 & H5).
  cbv zeta. auto.
Qed.

Lemma turns_charge_one_unit_per_three_witness :
  (-1 = 1 \/ -1 = -1) /\ is_running armed = true /\ steps armed = 0 /\
  rotation_count armed mod 3 = 0 /\
  loading_progress armed + Z.of_nat (10 / 3) <= 5 /\
  snd (full_turns 10 (-1) (armed, [])) = [] ++ units (loading_progress armed) (10 / 3).
Proof.
  split; [right; reflexivity|]. do 3 (split; [reflexivity|]).
  split; [cbn; lia|].
  refine (proj2 (proj2 (proj2
            (turns_charge_one_unit_per_three 10 (-1) armed []
               (or_intror eq_refl) eq_refl eq_refl eq_refl _)))).
  cbn; lia.
Defined.

(** X4.  A turn one way and a turn back charge a unit: the count is back on
    its multiple of three, and landing there is what counts, whichever
    way the wheel came. *)
Theorem there_and_back_charges_a_unit (d : Z) (r : t) (q : Queue) :
  d = 1 \/ d = -1 ->
  is_running r = true -> steps r = 0 -> rotation_count r mod 3 = 0 ->
  loading_progress r + 1 < 6 ->
  full_turn (- d) (full_turn d (r, q)) =
    (mk true 0 (rotation_count r) (loading_progress r + 1) true,
     q ++ [bar_update (loading_progress r + 1)]).
Proof.
  intros Hd Hrun Hst Hmod Hlp.
  assert (Habs : Z.abs d = 1) by lia.
  assert (Habs' : Z.abs (- d) = 1) by lia.
  rewrite (full_turn_from_rest d r q Habs Hst), (turn_active d r q Habs Hrun).
  cbv zeta.
  destruct (Z.eqb_spec ((rotation_count r + d) mod 3) 0) as [E|_];
    [exfalso; destruct Hd; subst d; Z.to_euclidean_division_equations; lia|].
  rewrite full_turn_from_rest, turn_active by (solve [reflexivity | assumption]).
  cbv zeta. cbn [rotation_count loading_progress].
  replace (rotation_count r + d + - d) with (rotation_count r) by lia.
  destruct (Z.eqb_spec (rotation_count r mod 3) 0) as [_|E]; [|contradiction].
  destruct (Z.leb_spec 6 (loading_progress r + 1)); [lia|reflexivity].
Qed.

Lemma there_and_back_charges_a_unit_witness :
  (1 = 1 \/ 1 = -1) /\ is_running armed = true /\ steps armed = 0 /\
  rotation_count armed mod 3 = 0 /\ loading_progress armed + 1 < 6 /\
  snd (full_turn (- (1)) (full_turn 1 (armed, []))) = [bar_update 0].
Proof.
  split; [left; reflexivity|]. do 4 (split; [reflexivity|]).
  exact (f_equal snd
           (there_and_back_charges_a_unit 1 armed []
              (or_introl eq_refl) eq_refl eq_refl eq_refl eq_refl)).
Defined.

(** X5.  A callback on the active dial counts one turn however many turns'
    worth of steps the encoder has run up since the last one: any count
    of steps of magnitude [CPR] or more has the effect of exactly [CPR]
    steps in the same direction, and the encoder is set back to zero. *)
Theorem surplus_steps_are_discarded (s : Z) (r : t) (q : Queue) :
  CPR <= Z.abs s -> is_running r = true ->
  rotation_detected (set_steps s r) q =
    rotation_detected (set_steps (Z.sgn s * CPR) r) q /\
  steps (fst (rotation_detected (set_steps s r) q)) = 0.
Proof. apply rotation_detected_surplus. Qed.

Lemma surplus_steps_are_discarded_witness :
  CPR <= Z.abs (-7000) /\ is_running armed = true /\
  rotation_count (fst (rotation_detected (set_steps (-7000) armed) [])) = -1.
Proof.
  split; [unfold CPR; lia|]. split; [reflexivity|].
  refine (eq_trans
            (f_equal (fun rq => rotation_count (fst rq))
               (proj1 (surplus_steps_are_discarded (-7000) armed [] _ eq_refl)))
            eq_refl).
  unfold CPR; lia.
Defined.

(** X6.  Turning the wheel while the dial is inactive is not without effect:
    the steps stay in the encoder, nothing is pushed meanwhile, and if
    they amount to a full turn or more, the first poll after the dial is
    armed counts them as exactly one turn in their direction. *)
Theorem turns_while_inactive_count_once (ds : list Z) (r : t) (q : Queue) :
  is_running r = false ->
  CPR <= Z.abs (fold_left Z.add ds (steps r)) ->
  snd (detents ds (r, q)) = q /\
  run_step (set_is_running true (fst (detents ds (r, q)))) q =
    turn (Z.sgn (fold_left Z.add ds (steps r))) (set_is_running true r) q.
Proof.
  intros Hoff Hsum. unfold detents.
  rewrite encoder_steps_inactive by exact Hoff. cbn [fst snd].
  split; [reflexivity|].
  unfold run_step, turn. cbn [is_running set_is_running].
  change (set_is_running true (set_steps (fold_left Z.add ds (steps r)) r))
    with (set_steps (fold_left Z.add ds (steps r)) (set_is_running true r)).
  apply rotation_detected_surplus; [exact Hsum|reflexivity].
Qed.

Lemma turns_while_inactive_count_once_witness :
  is_running init = false /\
  CPR <= Z.abs (fold_left Z.add (repeat (-1) 2100) (steps init)) /\
  rotation_count
    (fst (run_step (set_is_running true (fst (detents (repeat (-1) 2100) (init, []))))
            [])) = -1.
Proof.
  split; [reflexivity|]. split; [vm_compute; discriminate|].
  refine (eq_trans
            (f_equal (fun rq => rotation_count (fst rq))
               (proj2 (turns_while_inactive_count_once (repeat (-1) 2100) init []
                         eq_refl _)))
            eq_refl).
  vm_compute; discriminate.
Defined.

End DialTurns.

(** ** The line buffer *)

Section BufferProperties.
Import LocalLLM Typing.

Lemma on_press_user_input (k : Key) (s : t) (q : Queue) :
  user_input (fst (on_press k s q)) = edit k (user_input s).
Proof.
  unfold on_press.
  destruct k as [[c|]| | | |]; cbn [on_press_key edit];
    try (destruct (truthy c)); cbn [key_count set_key_count set_input_ready
                                      set_user_input];
    destruct (3 <=? _); reflexivity.
Qed.

(** Key capture leaves the conversation, the stored response, the
    output flag and [is_running] alone. *)
Lemma on_press_frame (k : Key) (s : t) (q : Queue) :
  messages (fst (on_press k s q)) = messages s /\
  response (fst (on_press k s q)) = response s /\
  llm_output_ready (fst (on_press k s q)) = llm_output_ready s /\
  is_running (fst (on_press k s q)) = is_running s.
Proof.
  unfold on_press.
  destruct k as [[c|]| | | |]; cbn [on_press_key];
    try (destruct (truthy c)); cbn [key_count set_key_count set_input_ready
                                      set_user_input];
    destruct (3 <=? _); repeat split.
Qed.

Lemma press_all_cons (k : Key) (ks : list Key) (s : t) (q : Queue) :
  press_all (k :: ks) (s, q) = press_all ks (on_press k s q).
Proof. reflexivity. Qed.

Lemma press_all_app (ks1 ks2 : list Key) (sq : t * Queue) :
  press_all (ks1 ++ ks2) sq = press_all ks2 (press_all ks1 sq).
Proof. unfold press_all. apply fold_left_app. Qed.

Lemma press_all_user_input (ks : list Key) : forall (s : t) (q : Queue),
  user_input (fst (press_all ks (s, q))) =
    fold_left (fun u k => edit k u) ks (user_input s).
Proof.
  induction ks as [|k ks IH]; intros s q; [reflexivity|].
  rewrite press_all_cons. cbn [fold_left].
  rewrite <- on_press_user_input with (q := q).
  destruct (on_press k s q) as [s1 q1]. apply IH.
Qed.

Lemma press_all_frame (ks : list Key) : forall (s : t) (q : Queue),
  messages (fst (press_all ks (s, q))) = messages s /\
  response (fst (press_all ks (s, q))) = response s /\
  llm_output_ready (fst (press_all ks (s, q))) = llm_output_ready s /\
  is_running (fst (press_all ks (s, q))) = is_running s.
Proof.
  induction ks as [|k ks IH]; intros s q; [repeat split|].
  rewrite press_all_cons.
  destruct (on_press_frame k s q) as (H1 & H2 & H3 & H4).
  destruct (on_press k s q) as [s1 q1]. cbn [fst] in *.
  destruct (IH s1 q1) as (I1 & I2 & I3 & I4).
  repeat split; congruence.
Qed.

Lemma edit_key_of_char (c : ascii) (u : string) :
  edit (key_of_char c) u = (u ++ String c EmptyString)%string.
Proof.
  unfold key_of_char. destruct (Ascii.eqb_spec c " ") as [->|_]; reflexivity.
Qed.

Lemma append_assoc (a b c : string) :
  ((a ++ b) ++ c)%string = (a ++ (b ++ c))%string.
Proof. induction a as [|x a IH]; cbn; [reflexivity | now rewrite IH]. Qed.

Lemma append_empty_r (u : string) : (u ++ EmptyString)%string = u.
Proof. induction u as [|x u IH]; cbn; [reflexivity | now rewrite IH]. Qed.

Lemma edit_keys_of_text (text : string) : forall u : string,
  fold_left (fun u k => edit k u) (keys_of_text text) u = (u ++ text)%string.
Proof.
  induction text as [|c text IH]; intros u; cbn [keys_of_text fold_left].
  - now rewrite append_empty_r.
  - rewrite edit_key_of_char, IH, append_assoc. reflexivity.
Qed.

Lemma edit_backspaces (n : nat) (u : string) :
  fold_left (fun u k => edit k u) (repeat Key_backspace n) u =
    Nat.iter n drop_last u.
Proof.
  revert u. induction n as [|n IH]; intros u; [reflexivity|].
  cbn [repeat fold_left edit]. rewrite IH.
  now rewrite Nat.iter_succ_r.
Qed.

Lemma drop_last_text (text : string) : forall u : string,
  Nat.iter (String.length text) drop_last (u ++ text)%string = u.
Proof.
  induction text as [|c text IH]; intros u.
  - cbn. apply append_empty_r.
  - cbn [String.length]. rewrite Nat.iter_succ.
    change (String c text) with (String c EmptyString ++ text)%string.
    rewrite <- append_assoc, IH.
    apply drop_last_snoc.
Qed.

Lemma press_all_text (text : string) (s : t) (q : Queue) :
  user_input (fst (press_all (keys_of_text text) (s, q))) =
    (user_input s ++ text)%string.
Proof. now rewrite press_all_user_input, edit_keys_of_text. Qed.

(** X7.  Typing a text appends it to the line buffer, whatever the buffer and
    the keystroke counter were, and as many backspaces as the text has
    characters give the buffer back as it was. *)
Theorem typed_text_is_appended_and_backspaced (text : string) (s : t) (q : Queue) :
  user_input (fst (press_all (keys_of_text text) (s, q))) =
    (user_input s ++ text)%string /\
  user_input (fst (press_all (keys_of_text text ++
                              repeat Key_backspace (String.length text)) (s, q))) =
    user_input s.
Proof.
  split.
  - apply press_all_text.
  - rewrite press_all_user_input, fold_left_app, edit_keys_of_text,
      edit_backspaces.
    apply drop_last_text.
Qed.

End BufferProperties.

(** ** The worker's cycles *)

Section CycleProperties.
Import LocalLLM Typing.

Lemma on_press_enter (s : t) (q : Queue) :
  on_press Key_enter s q = (set_input_ready true (set_key_count 0 s), [inputsent]).
Proof. reflexivity. Qed.

(** X8.  What is typed is what is sent: a text typed and finished with Enter,
    in an iteration whose model call and log write succeed, adds the
    buffer with the text as the user's entry and the reply as the
    assistant's; the queue then holds [INPUTSENT] and the [LLM_RESPONSE]
    and nothing from before, and the buffer and [input_ready] are reset. *)
Theorem typed_prompt_is_sent (text txt : string) (s : t) (q : Queue) :
  exists st',
    run_iteration (keys_of_text text ++ [Key_enter]) (Ok txt) (Ok tt) (s, q)
      = Some st' /\
    messages (fst st') =
      messages s ++ [mkMessage "user" (user_input s ++ text);
                     mkMessage "assistant" txt] /\
    snd st' = [inputsent; llm_response (PyChat txt)] /\
    response (fst st') = Some (PyChat txt) /\
    llm_output_ready (fst st') = true /\
    input_ready (fst st') = false /\
    user_input (fst st') = EmptyString /\
    key_count (fst st') = 0.
Proof.
  unfold run_iteration. cbn [fst snd]. rewrite press_all_app.
  pose proof (press_all_frame (keys_of_text text) (run_begin s) q) as (Hm & _).
  pose proof (press_all_text text (run_begin s) q) as Hu.
  destruct (press_all (keys_of_text text) (run_begin s, q)) as [s1 q1].
  cbn [fst] in Hm, Hu.
  change (press_all [Key_enter] (s1, q1)) with (on_press Key_enter s1 q1).
  rewrite on_press_enter. cbn [fst input_ready set_input_ready].
  eexists. split; [reflexivity|]. cbn.
  rewrite Hm, Hu, <- app_assoc. repeat split.
Qed.

(** X9.  Every pass through the cycle appends the user's entry to the
    conversation and pushes exactly one [LLM_RESPONSE]; the assistant's
    entry is appended, and the buffer and [input_ready] reset, exactly
    when the model call and the log write both succeed.  Nothing is
    ever removed from the conversation. *)
Theorem cycle_appends_to_the_conversation
    (chat : result string) (log : result unit) (st : St) :
  let st' := run_finish chat log st in
  let complete := match chat, log with Ok _, Ok _ => true | _, _ => false end in
  messages (fst st') =
    messages (fst st) ++
    mkMessage "user" (user_input (fst st)) ::
    match chat, log with
    | Ok c, Ok _ => [mkMessage "assistant" c]
    | _, _ => []
    end /\
  (exists v : PyVal, snd st' = snd st ++ [llm_response v]) /\
  input_ready (fst st') = (if complete then false else input_ready (fst st)) /\
  user_input (fst st') =
    (if complete then EmptyString else user_input (fst st)).
Proof.
  destruct st as [s q]. cbv zeta. unfold run_finish.
  destruct chat as [c|e], log as [[]|e']; cbn;
    rewrite <- ?app_assoc; repeat split; eexists; reflexivity.
Qed.

(** X10.  A failed log write leaves the cycle unfinished although the model
    has answered: [llm_output_ready] is up with the reply stored, the
    event pushed carries the error text, and [input_ready] stays up, so
    the next iteration sends the same prompt to the model again.  After
    it the conversation holds the user's entry twice and the second
    reply only. *)
Theorem failed_log_write_repeats_the_prompt
    (txt txt2 : string) (e : Exn) (st : St) :
  input_ready (fst st) = true ->
  exists st1 st2,
    run_iteration [] (Ok txt) (Raise e) st = Some st1 /\
    llm_output_ready (fst st1) = true /\
    response (fst st1) = Some (PyChat txt) /\
    run_iteration [] (Ok txt2) (Ok tt) st1 = Some st2 /\
    messages (fst st2) =
      messages (fst st) ++
      [mkMessage "user" (user_input (fst st));
       mkMessage "user" (user_input (fst st));
       mkMessage "assistant" txt2] /\
    snd st2 =
      snd st ++ [llm_response (PyStr ("Error: " ++ exn_str e));
                 llm_response (PyChat txt2)].
Proof.
  destruct st as [s q]. cbn [fst snd]. intros Hready.
  unfold run_iteration, run_begin, press_all.
  cbn [fold_left fst snd input_ready set_input_counter].
  rewrite Hready. eexists. eexists.
  split; [reflexivity|]. cbn. rewrite Hready.
  split; [reflexivity|]. split; [reflexivity|]. split; [reflexivity|].
  cbn. rewrite <- !app_assoc. split; reflexivity.
Qed.

Lemma failed_log_write_repeats_the_prompt_witness :
  input_ready (fst (press_all (keys_of_text "hi" ++ [Key_enter]) (init, []))) = true /\
  exists st1 st2,
    run_iteration [] (Ok "Fellowship is life"%string)
      (Raise (OtherError "disk full"))
      (press_all (keys_of_text "hi" ++ [Key_enter]) (init, [])) = Some st1 /\
    run_iteration [] (Ok "Art is long"%string) (Ok tt) st1 = Some st2 /\
    messages (fst st2) =
      [system_prompt; mkMessage "user" "hi"; mkMessage "user" "hi";
       mkMessage "assistant" "Art is long"].
Proof.
  split; [reflexivity|].
  destruct (failed_log_write_repeats_the_prompt
              "Fellowship is life" "Art is long" (OtherError "disk full")
              (press_all (keys_of_text "hi" ++ [Key_enter]) (init, [])) eq_refl)
    as (st1 & st2 & H1 & _ & _ & H2 & Hm & _).
  exists st1, st2. split; [exact H1|]. split; [exact H2|exact Hm].
Defined.

(** One iteration in which the call to the model raises. *)
Lemma failed_call_step (e : Exn) (s : t) (q : Queue) :
  input_ready s = true ->
  exists s',
    run_iteration [] (Raise e) (Ok tt) (s, q) = Some (s', q ++ [str_error_event]) /\
    messages s' = messages s ++ [mkMessage "user" (user_input s)] /\
    input_ready s' = true /\
    user_input s' = user_input s /\
    llm_output_ready s' = llm_output_ready s.
Proof.
  intros Hready.
  unfold run_iteration, run_begin, run_finish, press_all.
  cbn [fold_left fst snd input_ready set_input_counter].
  rewrite Hready. eexists. split; [reflexivity|]. cbn. repeat split; auto.
Qed.

(** X11.  While the model cannot be reached the worker goes round its loop
    without waiting for the user: each failed call adds one more copy of
    the same user entry to the conversation and one more error event to
    the queue, and leaves the buffer, [input_ready] and
    [llm_output_ready] as they were. *)
Theorem failed_calls_pile_up (es : list Exn) : forall st : St,
  input_ready (fst st) = true ->
  exists st',
    run_iterations (failing es) st = Some st' /\
    messages (fst st') =
      messages (fst st) ++
      repeat (mkMessage "user" (user_input (fst st))) (List.length es) /\
    snd st' = snd st ++ repeat str_error_event (List.length es) /\
    input_ready (fst st') = true /\
    user_input (fst st') = user_input (fst st) /\
    llm_output_ready (fst st') = llm_output_ready (fst st).
Proof.
  induction es as [|e es IH]; intros [s q] Hready; cbn [fst snd] in *.
  - exists (s, q). cbn. rewrite !app_nil_r. repeat split; auto.
  - destruct (failed_call_step e s q Hready) as (s1 & Hrun & Hm & Hr & Hu & Hl).
    destruct (IH (s1, q ++ [str_error_event]) Hr)
      as (st' & Hrun' & Hm' & Hq' & Hr' & Hu' & Hl').
    cbn [fst snd] in *.
    exists st'. cbn [failing map run_iterations]. rewrite Hrun.
    split; [exact Hrun'|].
    rewrite Hm', Hq', Hm, Hu, <- !app_assoc. cbn [List.length repeat app].
    repeat split; congruence.
Qed.

Lemma failed_calls_pile_up_witness :
  input_ready (fst (press_all [Key_enter] (init, []))) = true /\
  exists st',
    run_iterations (failing [OtherError "refused"; OtherError "refused";
                             OtherError "timed out"])
      (press_all [Key_enter] (init, [])) = Some st' /\
    List.length (messages (fst st')) = 4%nat.
Proof.
  split; [reflexivity|].
  destruct (failed_calls_pile_up
              [OtherError "refused"; OtherError "refused"; OtherError "timed out"]
              (press_all [Key_enter] (init, [])) eq_refl)
    as (st' & Hrun & Hm & _).
  exists st'. split; [exact Hrun|]. now rewrite Hm.
Defined.

End CycleProperties.

(** ** The dispatch loop *)

Section LoopProperties.
Import DeviceController Gate Loop.

Lemma handle_event_set_event_queue (e : Event) (q : Queue) (c : t) :
  handle_event e (set_event_queue q c) =
    match handle_event e c with
    | Ok c' => Ok (set_event_queue q c')
    | Raise x => Raise x
    end.
Proof.
  unfold handle_event, check_display_response, llm_response_content.
  destruct (type e); cbn; try reflexivity.
  - destruct (LocalLLM.llm_output_ready (llm c) && loading_bar_full c);
      [|reflexivity].
    destruct (LocalLLM.response (llm c)) as [v|]; [|reflexivity].
    destruct (message_content v); reflexivity.
  - destruct (LocalLLM.llm_output_ready (llm c) && true); [|reflexivity].
    destruct (LocalLLM.response (llm c)) as [v|]; [|reflexivity].
    destruct (message_content v); reflexivity.
Qed.

(** What handling an event leaves alone. *)
Lemma handle_event_frame (e : Event) (c c' : t) :
  handle_event e c = Ok c' ->
  event_queue c' = event_queue c /\
  LocalLLM.messages (llm c') = LocalLLM.messages (llm c) /\
  LocalLLM.user_input (llm c') = LocalLLM.user_input (llm c) /\
  LocalLLM.input_ready (llm c') = LocalLLM.input_ready (llm c) /\
  LocalLLM.response (llm c') = LocalLLM.response (llm c) /\
  RotaryEncoderClass.steps (rotary c') = RotaryEncoderClass.steps (rotary c) /\
  RotaryEncoderClass.rotation_count (rotary c') =
    RotaryEncoderClass.rotation_count (rotary c) /\
  RotaryEncoderClass.loading_progress (rotary c') =
    RotaryEncoderClass.loading_progress (rotary c) /\
  RotaryEncoderClass.is_running (rotary c') =
    match type e with
    | INPUTSENT => true
    | SHUTDOWN => false
    | _ => RotaryEncoderClass.is_running (rotary c)
    end /\
  is_running c' = (if is_shutdown e then false else is_running c).
Proof.
  unfold handle_event, check_display_response, llm_response_content, is_shutdown.
  destruct (type e); cbn.
  - destruct (LocalLLM.llm_output_ready (llm c) && loading_bar_full c).
    + destruct (LocalLLM.response (llm c)) as [v|] eqn:Er; [|discriminate].
      destruct (message_content v); [|discriminate].
      intros H; injection H as <-. cbn. repeat split; auto.
    + intros H; injection H as <-. repeat split.
  - intros H; injection H as <-. repeat split.
  - intros H; injection H as <-. repeat split.
  - intros H; injection H as <-. repeat split.
  - intros H; injection H as <-. repeat split.
  - destruct (LocalLLM.llm_output_ready (llm c) && true).
    + destruct (LocalLLM.response (llm c)) as [v|] eqn:Er; [|discriminate].
      destruct (message_content v); [|discriminate].
      intros H; injection H as <-. cbn. repeat split; auto.
    + intros H; injection H as <-. repeat split.
  - intros H; injection H as <-. repeat split.
Qed.

(** X12.  The dispatcher only consumes.  Handling an event, whichever it is,
    pushes nothing onto the event queue, changes neither the
    conversation nor the line buffer nor [input_ready], and moves none
    of the dial's counters: a new prompt arms the dial without resetting
    the charge accumulated so far.  The dial's active flag changes only
    on [INPUTSENT] (raised) and [SHUTDOWN] (lowered), and the loop's own
    only on [SHUTDOWN]. *)
Theorem dispatcher_only_consumes (e : Event) (c : t) :
  reply_ok c = true ->
  exists c',
    handle_event e c = Ok c' /\
    event_queue c' = event_queue c /\
    LocalLLM.messages (llm c') = LocalLLM.messages (llm c) /\
    LocalLLM.user_input (llm c') = LocalLLM.user_input (llm c) /\
    LocalLLM.input_ready (llm c') = LocalLLM.input_ready (llm c) /\
    RotaryEncoderClass.steps (rotary c') = RotaryEncoderClass.steps (rotary c) /\
    RotaryEncoderClass.rotation_count (rotary c') =
      RotaryEncoderClass.rotation_count (rotary c) /\
    RotaryEncoderClass.loading_progress (rotary c') =
      RotaryEncoderClass.loading_progress (rotary c) /\
    RotaryEncoderClass.is_running (rotary c') =
      match type e with
      | INPUTSENT => true
      | SHUTDOWN => false
      | _ => RotaryEncoderClass.is_running (rotary c)
      end /\
    is_running c' = (if is_shutdown e then false else is_running c).
Proof.
  intros Hok.
  destruct (handle_event_calls e c Hok) as (c' & Hrun & _).
  exists c'. split; [exact Hrun|].
  destruct (handle_event_frame e c c' Hrun)
    as (H1 & H2 & H3 & H4 & _ & H6 & H7 & H8 & H9 & H10).
  repeat split; assumption.
Qed.

Lemma dispatcher_only_consumes_witness :
  reply_ok after_full_charge = true /\
  exists c',
    handle_event inputsent after_full_charge = Ok c' /\
    RotaryEncoderClass.is_running (rotary c') = true /\
    event_queue c' = [].
Proof.
  split; [reflexivity|].
  destruct (dispatcher_only_consumes inputsent after_full_charge eq_refl)
    as (c' & Hrun & Hq & _ & _ & _ & _ & _ & _ & Harm & _).
  exists c'. split; [exact Hrun|]. split; [exact Harm|exact Hq].
Defined.

Lemma handle_all_set_event_queue (events : list Event) :
  forall (q : Queue) (c : t),
    handle_all events (set_event_queue q c) =
      match handle_all events c with
      | Ok c' => Ok (set_event_queue q c')
      | Raise x => Raise x
      end.
Proof.
  induction events as [|e events IH]; intros q c; [reflexivity|].
  cbn [handle_all]. rewrite handle_event_set_event_queue.
  destruct (handle_event e c) as [c1|x]; [apply IH|reflexivity].
Qed.

(** X13.  The dispatch loop takes the queued events in the order they were
    put, one per iteration, and hands each to [handle_event]; an
    exception from a handler ends the loop with that exception; once the
    queue is empty, further iterations only poll and change nothing. *)
Theorem dispatch_loop_is_fifo (events : list Event) (k : nat) (c : t) :
  is_running c = true -> no_shutdown events = true ->
  event_queue c = events ->
  process_events (List.length events + k) c =
    match handle_all events c with
    | Ok c' => Ok (set_event_queue [] c')
    | Raise x => Raise x
    end.
Proof.
  revert k c. induction events as [|e events IH]; intros k c Hrun Hno Hq.
  - cbn [List.length Nat.add handle_all].
    assert (Hc : set_event_queue [] c = c)
      by (destruct c; cbn in Hq; subst; reflexivity).
    rewrite Hc. clear Hc.
    induction k as [|k IHk]; [reflexivity|].
    cbn [process_events]. rewrite Hrun. unfold process_step. rewrite Hq.
    cbn [get]. exact IHk.
  - cbn [List.length Nat.add process_events handle_all].
    rewrite Hrun. unfold process_step. rewrite Hq. cbn [get].
    rewrite handle_event_set_event_queue.
    cbn [no_shutdown forallb] in Hno. apply andb_true_iff in Hno as [He Hno].
    destruct (handle_event e c) as [c1|x] eqn:E; [|reflexivity].
    destruct (handle_event_frame e c c1 E) as (_ & _ & _ & _ & _ & _ & _ & _ & _ & Hr1).
    apply negb_true_iff in He. rewrite He, Hrun in Hr1.
    rewrite (IH k (set_event_queue events c1)); [|exact Hr1|exact Hno|reflexivity].
    rewrite handle_all_set_event_queue.
    destruct (handle_all events c1); reflexivity.
Qed.

Lemma dispatch_loop_is_fifo_witness :
  is_running (set_event_queue [inputsent; bar_update 0; keyboardinput] init) = true /\
  no_shutdown [inputsent; bar_update 0; keyboardinput] = true /\
  process_events (3 + 5)
    (set_event_queue [inputsent; bar_update 0; keyboardinput] init) =
    match handle_all [inputsent; bar_update 0; keyboardinput]
            (set_event_queue [inputsent; bar_update 0; keyboardinput] init) with
    | Ok c' => Ok (set_event_queue [] c')
    | Raise x => Raise x
    end.
Proof.
  split; [reflexivity|]. split; [reflexivity|].
  exact (dispatch_loop_is_fifo [inputsent; bar_update 0; keyboardinput] 5
           (set_event_queue [inputsent; bar_update 0; keyboardinput] init)
           eq_refl eq_refl eq_refl).
Defined.

(** X14.  A [SHUTDOWN] event stops the dispatcher and its three components,
    and ends the loop there: the events queued behind it stay in the
    queue and are never handled, however long the loop is given. *)
Theorem shutdown_stops_everything (e : Event) (rest : Queue) (fuel : nat) (c : t) :
  type e = SHUTDOWN -> is_running c = true -> event_queue c = e :: rest ->
  exists c',
    process_events (S fuel) c = Ok c' /\
    is_running c' = false /\
    EpaperDisplay.is_running (display c') = false /\
    RotaryEncoderClass.is_running (rotary c') = false /\
    LocalLLM.is_running (llm c') = false /\
    event_queue c' = rest /\
    EpaperDisplay.calls (display c') = EpaperDisplay.calls (display c) /\
    loading_bar_full c' = loading_bar_full c.
Proof.
  intros Hty Hrun Hq.
  exists (shutdown (set_event_queue rest c)).
  split; [|repeat split].
  cbn [process_events]. rewrite Hrun. unfold process_step. rewrite Hq.
  cbn [get]. unfold handle_event. rewrite Hty.
  destruct fuel; reflexivity.
Qed.

Lemma shutdown_stops_everything_witness :
  type shutdown_event = SHUTDOWN /\
  is_running (set_event_queue [shutdown_event; bar_full] init) = true /\
  exists c',
    process_events 10 (set_event_queue [shutdown_event; bar_full] init) = Ok c' /\
    event_queue c' = [bar_full] /\ loading_bar_full c' = false.
Proof.
  split; [reflexivity|]. split; [reflexivity|].
  destruct (shutdown_stops_everything shutdown_event [bar_full] 9
              (set_event_queue [shutdown_event; bar_full] init)
              eq_refl eq_refl eq_refl)
    as (c' & Hrun & _ & _ & _ & _ & Hq & _ & Hfull).
  exists c'. split; [exact Hrun|]. split; [exact Hq|exact Hfull].
Defined.

(** X15.  Nothing queued for the display thread is ever drawn: its loop takes
    the items off [update_queue] one per iteration, oldest first, and
    enters no drawing routine for any of them. *)
Theorem display_thread_draws_nothing (texts : list PyVal) (n : nat)
    (d : EpaperDisplay.t) :
  EpaperDisplay.update_queue (display_run n (queue_updates texts d)) =
    skipn n (EpaperDisplay.update_queue d ++ texts) /\
  EpaperDisplay.calls (display_run n (queue_updates texts d)) =
    EpaperDisplay.calls d.
Proof.
  assert (Hq : forall texts d,
             EpaperDisplay.update_queue (queue_updates texts d) =
               EpaperDisplay.update_queue d ++ texts /\
             EpaperDisplay.calls (queue_updates texts d) = EpaperDisplay.calls d).
  { clear. induction texts as [|x texts IH]; intros d.
    - cbn. now rewrite app_nil_r.
    - cbn [queue_updates fold_left]. fold (queue_updates texts (EpaperDisplay.queue_update x d)).
      destruct (IH (EpaperDisplay.queue_update x d)) as [H1 H2].
      rewrite H1, H2. cbn. now rewrite <- app_assoc. }
  assert (Hr : forall n d,
             EpaperDisplay.update_queue (display_run n d) =
               skipn n (EpaperDisplay.update_queue d) /\
             EpaperDisplay.calls (display_run n d) = EpaperDisplay.calls d).
  { clear. induction n as [|n IH]; intros d; [split; reflexivity|].
    unfold display_run. rewrite Nat.iter_succ_r. fold (display_run n (fst (EpaperDisplay.run_step d))).
    destruct (IH (fst (EpaperDisplay.run_step d))) as [H1 H2].
    rewrite H1, H2. unfold EpaperDisplay.run_step.
    destruct (EpaperDisplay.update_queue d) as [|x rest] eqn:E; cbn.
    - rewrite E. destruct n; split; reflexivity.
    - split; reflexivity. }
  destruct (Hr n (queue_updates texts d)) as [H1 H2].
  destruct (Hq texts d) as [H3 H4].
  rewrite H1, H2, H3, H4. split; reflexivity.
Qed.

(** X16.  An [LLM_RESPONSE] that comes again changes nothing: once one has been
    handled, handling another, whatever it carries, returns the state as
    it is, and no second [display_response] is entered. *)
Theorem repeated_llm_response_changes_nothing (e e' : Event) (c : t) :
  reply_ok c = true -> type e = LLM_RESPONSE -> type e' = LLM_RESPONSE ->
  exists c',
    handle_event e c = Ok c' /\ handle_event e' c' = Ok c'.
Proof.
  intros Hok He He'. unfold handle_event. rewrite He, He'.
  unfold reply_ok in Hok. unfold check_display_response, llm_response_content.
  destruct c as [q r d l cp ui cr lp run full].
  destruct l as [lrun kc ic ir ready inp ms resp]. cbn in *.
  destruct ready, full; cbn in *;
    try (eexists; split; reflexivity).
  destruct resp as [[| | |txt]|]; try discriminate.
  cbn. eexists; split; reflexivity.
Qed.

Lemma repeated_llm_response_changes_nothing_witness :
  reply_ok (set_loading_bar_full true (System.answered "News from nowhere")) = true /\
  type (llm_response PyNone) = LLM_RESPONSE /\
  exists c',
    handle_event (llm_response PyNone)
      (set_loading_bar_full true (System.answered "News from nowhere")) = Ok c' /\
    handle_event (llm_response (PyStr "again")) c' = Ok c'.
Proof.
  split; [reflexivity|]. split; [reflexivity|].
  exact (repeated_llm_response_changes_nothing
           (llm_response PyNone) (llm_response (PyStr "again"))
           (set_loading_bar_full true (System.answered "News from nowhere"))
           eq_refl eq_refl eq_refl).
Defined.

End LoopProperties.

(** ** Text layout *)

Section TextProperties.
Import PyText.

Lemma split_on_from_nonempty (sep : ascii) (s : string) : forall cur,
  split_on_from sep cur s <> [].
Proof.
  induction s as [|c s IH]; intros cur; cbn; [discriminate|].
  destruct (Ascii.eqb c sep); [discriminate|apply IH].
Qed.

Lemma join_cons (sep x : string) (l : list string) :
  l <> [] -> join sep (x :: l) = (x ++ sep ++ join sep l)%string.
Proof. destruct l; [contradiction|reflexivity]. Qed.

Lemma join_split_on_from (sep : ascii) (s : string) : forall cur,
  join (String sep EmptyString) (split_on_from sep cur s) = (cur ++ s)%string.
Proof.
  induction s as [|c s IH]; intros cur; cbn [split_on_from].
  - cbn. now rewrite append_empty_r.
  - destruct (Ascii.eqb_spec c sep) as [->|Hne].
    + rewrite join_cons by apply split_on_from_nonempty.
      rewrite IH. reflexivity.
    + rewrite IH, append_assoc. reflexivity.
Qed.

Lemma forall_chars_snoc (p : ascii -> bool) (s : string) (c : ascii) :
  forall_chars p (s ++ String c EmptyString) = forall_chars p s && p c.
Proof.
  induction s as [|x s IH]; cbn.
  - now rewrite andb_true_r.
  - now rewrite IH, andb_assoc.
Qed.

Lemma forall_chars_impl (p p' : ascii -> bool) (s : string) :
  (forall c, p c = true -> p' c = true) ->
  forall_chars p s = true -> forall_chars p' s = true.
Proof.
  intros Hp. induction s as [|x s IH]; cbn; [auto|].
  intros H. apply andb_true_iff in H as [H1 H2].
  apply andb_true_iff. auto.
Qed.

Lemma nonempty_snoc (s : string) (c : ascii) :
  nonempty (s ++ String c EmptyString) = true.
Proof. destruct s; reflexivity. Qed.

Lemma split_from_words (s : string) : forall cur,
  forall_chars (fun c => negb (isspace c)) cur = true ->
  forallb is_word (split_from cur s) = true.
Proof.
  induction s as [|c s IH]; intros cur Hcur; cbn [split_from].
  - destruct (nonempty cur) eqn:E; [|reflexivity].
    cbn. unfold is_word. now rewrite E, Hcur.
  - destruct (isspace c) eqn:Ec.
    + destruct (nonempty cur) eqn:E.
      * cbn [forallb]. unfold is_word at 1. rewrite E, Hcur. cbn.
        now apply IH.
      * now apply IH.
    + apply IH. rewrite forall_chars_snoc, Hcur, Ec. reflexivity.
Qed.

Lemma split_on_from_word (sep : ascii) (w : string) : forall cur s,
  forall_chars (fun c => negb (Ascii.eqb c sep)) w = true ->
  split_on_from sep cur (w ++ s) = split_on_from sep (cur ++ w) s.
Proof.
  induction w as [|c w IH]; intros cur s Hw; cbn [append].
  - now rewrite append_empty_r.
  - cbn in Hw. apply andb_true_iff in Hw as [Hc Hw].
    cbn [split_on_from]. apply negb_true_iff in Hc. rewrite Hc.
    rewrite IH by exact Hw. now rewrite append_assoc.
Qed.

Lemma split_on_join (sep : ascii) (ws : list string) :
  ws <> [] ->
  forallb (forall_chars (fun c => negb (Ascii.eqb c sep))) ws = true ->
  split_on sep (join (String sep EmptyString) ws) = ws.
Proof.
  unfold split_on.
  induction ws as [|w ws IH]; intros Hne Hall; [contradiction|].
  cbn [forallb] in Hall. apply andb_true_iff in Hall as [Hw Hall].
  destruct ws as [|w' ws].
  - cbn [join]. rewrite <- (append_empty_r w) at 1.
    rewrite split_on_from_word by exact Hw. reflexivity.
  - rewrite join_cons by discriminate.
    rewrite split_on_from_word by exact Hw.
    cbn [append split_on_from]. rewrite Ascii.eqb_refl.
    cbn [append]. f_equal. apply IH; [discriminate|exact Hall].
Qed.

(** X17.  Squeezing the whitespace of a text and cutting the result at the
    spaces gives the words of the text back: [text.split()] returns
    words, non-empty and free of whitespace, in order; joining them with
    single spaces and splitting at the space returns exactly those
    words, except for a text without any word, where it returns the one
    empty string; and joining the pieces of any string cut at a separator
    gives the string back. *)
Theorem squeezed_text_has_the_same_words (text : string) :
  forallb is_word (split text) = true /\
  split_on " " (join " " (split text)) =
    match split text with
    | [] => [EmptyString]
    | _ :: _ => split text
    end /\
  forall s : string, join " " (split_on " " s) = s.
Proof.
  assert (Hw : forallb is_word (split text) = true)
    by (apply split_from_words; reflexivity).
  split; [exact Hw|]. split.
  - destruct (split text) as [|w ws] eqn:E; [reflexivity|].
    apply split_on_join; [discriminate|].
    clear E. revert Hw. generalize (w :: ws). clear.
    induction l as [|x l IH]; cbn; [reflexivity|].
    intros H. apply andb_true_iff in H as [Hx Hl].
    rewrite IH by exact Hl. rewrite andb_true_r.
    unfold is_word in Hx. apply andb_true_iff in Hx as [_ Hx].
    revert Hx. apply forall_chars_impl.
    intros c Hc. apply negb_true_iff in Hc. apply negb_true_iff.
    destruct (Ascii.eqb_spec c " ") as [->|]; [discriminate Hc|reflexivity].
  - intros s. unfold split_on. now rewrite join_split_on_from.
Qed.

End TextProperties.

Section WrapProperties.
Import PyText Layout.

Variable width : string -> Z.
Variable max_width : Z.

Lemma join_app (sep : string) (a b : list string) :
  a <> [] -> b <> [] ->
  join sep (a ++ b) = (join sep a ++ sep ++ join sep b)%string.
Proof.
  intros Ha Hb. induction a as [|x a IH]; [contradiction|].
  destruct a as [|y a].
  - cbn [app]. now rewrite join_cons.
  - change ((x :: y :: a) ++ b) with (x :: ((y :: a) ++ b)).
    rewrite join_cons by discriminate.
    rewrite IH by discriminate.
    rewrite (join_cons sep x (y :: a)) by discriminate.
    now rewrite !append_assoc.
Qed.

Lemma concat_nonempty (gs : list (list string)) :
  gs <> [] -> Forall (fun g => g <> []) gs -> List.concat gs <> [].
Proof.
  destruct gs as [|g gs]; [contradiction|].
  intros _ H. inversion H as [|? ? Hg _]; subst.
  destruct g; [contradiction|discriminate].
Qed.

Lemma join_concat (sep : string) (gs : list (list string)) :
  gs <> [] -> Forall (fun g => g <> []) gs ->
  join sep (map (join sep) gs) = join sep (List.concat gs).
Proof.
  induction gs as [|g gs IH]; intros Hne Hall; [contradiction|].
  inversion Hall as [|? ? Hg Hgs]; subst.
  destruct gs as [|g' gs].
  - cbn. now rewrite app_nil_r.
  - cbn [map List.concat].
    rewrite join_cons by discriminate.
    change (join sep g' :: map (join sep) gs) with (map (join sep) (g' :: gs)).
    rewrite IH by (auto; discriminate).
    rewrite join_app; [reflexivity|exact Hg|].
    apply (concat_nonempty (g' :: gs)); [discriminate|exact Hgs].
Qed.

(** The loop of [wrap_text], once the current line holds a word. *)
Lemma wrap_fold (rest : list string) : forall (lines cur : list string),
  cur <> [] -> fits width max_width cur ->
  exists (groups : list (list string)) (cur' : list string),
    fold_left (wrap_step width max_width) rest (lines, cur) =
      (lines ++ map (join " ") groups, cur') /\
    cur' <> [] /\
    Forall (fun g => g <> [] /\ fits width max_width g) groups /\
    fits width max_width cur' /\
    List.concat groups ++ cur' = cur ++ rest.
Proof.
  induction rest as [|w rest IH]; intros lines cur Hne Hfit.
  - exists [], cur. cbn. rewrite !app_nil_r. auto.
  - cbn [fold_left]. unfold wrap_step at 2. cbn [fst snd].
    destruct (Z.leb_spec (width (join " " (cur ++ [w]))) max_width) as [Hle|Hgt].
    + destruct (IH lines (cur ++ [w])) as (groups & cur' & Hf & Hc & Hg & Hfc & Hcat).
      * destruct cur; discriminate.
      * right. exact Hle.
      * exists groups, cur'. rewrite Hf, Hcat, <- app_assoc. auto.
    + destruct (IH (lines ++ [join " " cur]) [w])
        as (groups & cur' & Hf & Hc & Hg & Hfc & Hcat).
      * discriminate.
      * left. now exists w.
      * exists (cur :: groups), cur'. rewrite Hf, <- app_assoc.
        cbn [map List.concat app]. rewrite <- app_assoc, Hcat.
        repeat split; auto.
Qed.

(** X18.  What [wrap_text] returns.  The lines are the squeezed text cut at
    some of its spaces: joined with single spaces they give the squeezed
    text back, so no word is lost, split or reordered.  Every line fits
    in [max_width] or is a single word, too wide to fit anywhere.  There
    is always at least one line; and when even the first word does not
    fit, one empty line comes before the lines of text. *)
Theorem wrap_text_lines (text : string) :
  let words := split_on " " (squeeze text) in
  exists L : list string,
    wrap_text width max_width text =
      (if width (hd EmptyString words) <=? max_width then [] else [EmptyString])
      ++ L /\
    L <> [] /\
    join " " L = squeeze text /\
    Forall (fun l => In l words \/ width l <= max_width) L.
Proof.
  cbv zeta. unfold wrap_text, wrap_words.
  pose proof (join_split_on_from " " (squeeze text) EmptyString) as Hjoin.
  cbn [append] in Hjoin. fold (split_on " " (squeeze text)) in Hjoin.
  pose proof (split_on_from_nonempty " " (squeeze text) EmptyString) as Hne.
  fold (split_on " " (squeeze text)) in Hne.
  destruct (split_on " " (squeeze text)) as [|w0 rest]; [contradiction|].
  clear Hne. cbn [hd fold_left].
  set (lines0 := if width w0 <=? max_width then [] else [EmptyString]).
  assert (Hfirst : wrap_step width max_width ([], []) w0 = (lines0, [w0])).
  { unfold wrap_step, lines0. cbn [fst snd app join].
    destruct (width w0 <=? max_width); reflexivity. }
  rewrite Hfirst.
  destruct (wrap_fold rest lines0 [w0]) as (groups & cur' & Hf & Hc & Hg & Hfc & Hcat).
  { discriminate. }
  { left. now exists w0. }
  rewrite Hf. cbn [fst snd].
  exists (map (join " ") (groups ++ [cur'])).
  destruct cur' as [|c0 cur']; [contradiction|].
  split; [|split; [|split]].
  - now rewrite map_app, app_assoc.
  - destruct groups; discriminate.
  - rewrite join_concat.
    + rewrite concat_app. cbn [List.concat]. rewrite app_nil_r, Hcat. exact Hjoin.
    + destruct groups; discriminate.
    + apply Forall_app. split; [|repeat constructor; discriminate].
      revert Hg. apply Forall_impl. intros g [H _]. exact H.
  - apply Forall_map. apply Forall_app. split.
    + assert (Hin : forall g, In g groups -> incl g ([w0] ++ rest)).
      { intros g Hg' x Hx. rewrite <- Hcat. apply in_or_app. left.
        apply in_concat. exists g. auto. }
      apply Forall_forall. intros g Hg'.
      rewrite Forall_forall in Hg. destruct (Hg g Hg') as [_ [[w ->]|Hle]].
      * left. cbn [join]. apply (Hin [w] Hg'). now left.
      * right. exact Hle.
    + constructor; [|constructor].
      destruct Hfc as [[w Hw]|Hle].
      * left. rewrite Hw. cbn [join].
        change (In w ([w0] ++ rest)). rewrite <- Hcat, Hw.
        apply in_or_app. right. now left.
      * right. exact Hle.
Qed.

End WrapProperties.

(** ** A whole interaction *)

Section SessionProperties.
Import DeviceController System Session.

(** The dispatcher's state once the prompt is typed and Enter pressed. *)
Lemma listen_prompt (text : string) (c : t) :
  exists ic : Z,
    listen (Typing.keys_of_text text ++ [LocalLLM.Key_enter]) (begin c) =
      set_event_queue [inputsent]
        (set_llm
           (LocalLLM.mk (LocalLLM.is_running (llm c)) 0 ic true
              (LocalLLM.llm_output_ready (llm c))
              (LocalLLM.user_input (llm c) ++ text)
              (LocalLLM.messages (llm c)) (LocalLLM.response (llm c)))
           c).
Proof.
  unfold listen, begin. cbn [llm event_queue set_llm].
  rewrite press_all_app.
  pose proof (press_all_frame (Typing.keys_of_text text)
                (LocalLLM.run_begin (llm c)) (event_queue c))
    as (Hm & Hr & Hl & Hrun).
  pose proof (press_all_text text (LocalLLM.run_begin (llm c)) (event_queue c))
    as Hu.
  destruct (LocalLLM.press_all (Typing.keys_of_text text)
              (LocalLLM.run_begin (llm c), event_queue c)) as [s1 q1].
  cbn [fst] in *.
  change (LocalLLM.press_all [LocalLLM.Key_enter] (s1, q1))
    with (LocalLLM.on_press LocalLLM.Key_enter s1 q1).
  rewrite on_press_enter. cbn [fst snd].
  exists (LocalLLM.input_counter s1).
  destruct s1; cbn in *. subst. destruct c; reflexivity.
Qed.

(** X19.  From the idle device, one interaction shows the reply exactly once,
    whichever is ready first, the reply or the charge: the prompt is
    echoed, the bar is advanced seven times, [display_response] is
    entered once, with the reply, as the last drawing routine; the
    conversation gains the prompt and the reply; and the device is idle
    again, with an empty queue, ready for the next interaction. *)
Theorem interaction_shows_the_reply_once (text txt : string) (c : t) :
  idle c = true ->
  (exists c',
     reply_first text txt c = Ok c' /\
     idle c' = true /\ event_queue c' = [] /\
     EpaperDisplay.calls (display c') =
       EpaperDisplay.calls (display c) ++ session_calls text txt /\
     LocalLLM.messages (llm c') =
       LocalLLM.messages (llm c) ++
       [LocalLLM.mkMessage "user" text; LocalLLM.mkMessage "assistant" txt]) /\
  (exists c',
     charge_first text txt c = Ok c' /\
     idle c' = true /\ event_queue c' = [] /\
     EpaperDisplay.calls (display c') =
       EpaperDisplay.calls (display c) ++ session_calls text txt /\
     LocalLLM.messages (llm c') =
       LocalLLM.messages (llm c) ++
       [LocalLLM.mkMessage "user" text; LocalLLM.mkMessage "assistant" txt]).
Proof.
  intros Hidle.
  unfold reply_first, charge_first, prompt.
  destruct (listen_prompt text c) as (ic & ->).
  destruct c as [q r d l cp ui cr lp run full].
  destruct r as [rrun st rc rlp met], l as [lrun kc lic ir ready inp ms resp],
    d as [drun uq nb dkc dic dlp calls].
  unfold idle in Hidle. cbn in Hidle.
  repeat (apply andb_true_iff in Hidle as [Hidle ?]).
  repeat match goal with
         | H : (_ =? _) = true |- _ => apply Z.eqb_eq in H
         | H : negb _ = true |- _ => apply negb_true_iff in H
         end.
  subst. destruct inp; [|discriminate].
  split; eexists; (split; [vm_compute; reflexivity|]);
    vm_compute; repeat split.
  - induction calls as [|x calls IH]; [reflexivity|]. cbn. f_equal. exact IH.
  - induction ms as [|x ms IH]; [reflexivity|]. cbn. f_equal. exact IH.
  - induction calls as [|x calls IH]; [reflexivity|]. cbn. f_equal. exact IH.
  - induction ms as [|x ms IH]; [reflexivity|]. cbn. f_equal. exact IH.
Qed.

Lemma interaction_shows_the_reply_once_witness :
  idle init = true /\
  exists c',
    charge_first "hi" "Fellowship is life" init = Ok c' /\
    EpaperDisplay.calls (display c') = session_calls "hi" "Fellowship is life".
Proof.
  split; [reflexivity|].
  destruct (interaction_shows_the_reply_once "hi" "Fellowship is life" init eq_refl)
    as [_ (c' & Hrun & _ & _ & Hcalls & _)].
  exists c'. split; [exact Hrun|exact Hcalls].
Defined.

End SessionProperties.
